(** * RoastingGrapher: the roast session recorder and its derived metrics

    A shallow embedding of
      - [src/utils/dtrCalculations.ts] (calculateDTR, getDTRColor,
        interpolateColor),
      - the two revisions of [RoastingScreen.tsx]: the older one (a counter
        of one-second ticks, manual changes logged at once) and the current
        one (wall-clock timer, roast stages, localStorage persistence),
      - the hand-over of the session data to [App.tsx] at the end of a roast.

    Conventions.  A JavaScript [number] is an exact rational ([Q]); NaN only
    appears where [parseInt] can produce it and is [None] there.  A React
    state cell is a record field, an event handler or a timer callback is a
    function from state to state (the batch of [setX] calls it makes), and
    [Date.now()] is an argument.  [JSON.stringify]/[JSON.parse] are modelled
    up to the text layer: a stored blob is the JSON value tree. *)

From Stdlib Require Import ZArith QArith Qround Qminmax Lia Lqa List String Ascii.
From Stdlib Require Import HexadecimalString.
From Stdlib Require DecimalString DecimalN Sorted.
From stdpp Require Import gmap strings pretty.
Import ListNotations.

Set Default Proof Using "Type".
Local Open Scope Q_scope.

(** ** JavaScript primitives *)

Module Js.

Definition number := Q.

(** [Math.floor], as a number. *)
Definition Math_floor (x : number) : number := inject_Z (Qfloor x).

(** [Math.round]: nearest integer, ties towards +infinity. *)
Definition Math_round (x : number) : Z := Qfloor (x + (1 # 2)).

(** [Math.max(a, b)]. *)
Definition Math_max (a b : number) : number := if Qle_bool a b then b else a.

(** Value of one hexadecimal digit, either case. *)
Definition hexVal (c : ascii) : option Z :=
  let n := Z.of_nat (nat_of_ascii c) in
  if ((48 <=? n) && (n <=? 57))%Z then Some (n - 48)%Z
  else if ((97 <=? n) && (n <=? 102))%Z then Some (n - 87)%Z
  else if ((65 <=? n) && (n <=? 70))%Z then Some (n - 55)%Z
  else None.

(** [parseInt(s, 16)] on a string without leading blanks, sign or [0x]:
    the value of the longest prefix of hexadecimal digits, NaN ([None])
    when that prefix is empty. *)
Fixpoint hexPrefix (s : string) (acc : option Z) : option Z :=
  match s with
  | EmptyString => acc
  | String c rest =>
      match hexVal c with
      | Some d =>
          hexPrefix rest
            (Some (match acc with Some a => 16 * a + d | None => d end)%Z)
      | None => acc
      end
  end.

Definition parseInt16 (s : string) : option Z := hexPrefix s None.

(** [n.toString(16)] for an integer [n]: lowercase digits, a minus sign
    in front of a negative value. *)
Definition hexOfN (n : N) : string :=
  NilEmpty.string_of_uint (N.to_hex_uint n).

Definition toString16 (n : Z) : string :=
  if (n <? 0)%Z then String "-" (hexOfN (Z.to_N (- n))) else hexOfN (Z.to_N n).

(** [x.toString(16)] where [x] may be NaN. *)
Definition numToString16 (x : option Z) : string :=
  match x with Some n => toString16 n | None => "NaN" end.

Fixpoint repeatChar (c : ascii) (n : nat) : string :=
  match n with O => EmptyString | S k => String c (repeatChar c k) end.

(** [s.padStart(targetLength, c)] for a one-character pad string. *)
Definition padStart (targetLength : nat) (c : ascii) (s : string) : string :=
  (repeatChar c (targetLength - String.length s) ++ s)%string.

(** [s.substring(a, b)] for [a <= b]. *)
Definition substring (a b : nat) (s : string) : string :=
  String.substring a (b - a) s.

End Js.

(** ** utils/dtrCalculations.ts *)

Module Dtr.
Import Js.

Definition calculateDTR (firstCrackTime : option number) (totalTime : number)
  : number :=
  match firstCrackTime with
  | None => 0
  | Some fc =>
      if Qeq_bool totalTime 0 then 0
      else
        let developmentTime := totalTime - fc in
        (developmentTime / totalTime) * 100
  end.

(** One colour channel of [interpolateColor]:
    [Math.round(c1 + (c2 - c1) * ratio)], NaN when a parse failed. *)
Definition mix (c1 c2 : option Z) (ratio : number) : option Z :=
  match c1, c2 with
  | Some a, Some b =>
      Some (Math_round (inject_Z a + (inject_Z b - inject_Z a) * ratio))
  | _, _ => None
  end.

Definition hex2 (x : option Z) : string := padStart 2 "0" (numToString16 x).

Definition interpolateColor (color1 color2 : string) (ratio : number) : string :=
  let hex := parseInt16 in
  let r1 := hex (substring 1 3 color1) in
  let g1 := hex (substring 3 5 color1) in
  let b1 := hex (substring 5 7 color1) in
  let r2 := hex (substring 1 3 color2) in
  let g2 := hex (substring 3 5 color2) in
  let b2 := hex (substring 5 7 color2) in
  let r := mix r1 r2 ratio in
  let g := mix g1 g2 ratio in
  let b := mix b1 b2 ratio in
  ("#" ++ hex2 r ++ hex2 g ++ hex2 b)%string.

Definition getDTRColor (dtr : number) : string :=
  if Qeq_bool dtr 0 then "#DAA06D"
  else if Qle_bool dtr 30 then
    let ratio := dtr / 30 in
    interpolateColor "#DAA06D" "#7B3F00" ratio
  else
    let ratio := (dtr - 30) / 70 in
    interpolateColor "#7B3F00" "#000000" ratio.

(** The three channels of a colour string [#rrggbb], read the way
    [interpolateColor] reads its arguments. *)
Definition channels (color : string) : option Z * option Z * option Z :=
  (parseInt16 (substring 1 3 color),
   parseInt16 (substring 3 5 color),
   parseInt16 (substring 5 7 color)).

(** The clamp the specification speaks of: [max(0, min(100, p))]. *)
Definition clamp100 (p : number) : number := Qmax 0 (Qmin 100 p).

End Dtr.

(** ** Data shared by the two revisions of RoastingScreen.tsx *)

Record TemperatureDataPoint := mkPoint {
  time : Js.number;          (* seconds since the timer started *)
  temperature : Js.number
}.

(** ['C' | 'F'] *)
Inductive TempUnit := UnitC | UnitF.

(** ['ready' | 'started' | 'firstCrack' | 'ended'] *)
Inductive RoastStage := ready | started | firstCrack | ended.

Record Props := mkProps {
  beanName : string;
  chargeTemp : Js.number;
  unit_ : TempUnit
}.

(** [unit === 'C' ? 1 : 1.8] *)
Definition tempStep (u : TempUnit) : Js.number :=
  match u with UnitC => 1 | UnitF => 18 # 10 end.

(** [a.slice(-n)]: the last [n] elements (all of them when there are fewer). *)
Definition sliceLast {A} (n : nat) (a : list A) : list A :=
  skipn (length a - n) a.

(** [newData.length > 3600 ? newData.slice(-3600) : newData] *)
Definition keepLastHour {A} (newData : list A) : list A :=
  if (3600 <? length newData)%nat then sliceLast 3600 newData else newData.

(** [a > b] on numbers. *)
Definition gtb (a b : Js.number) : bool := negb (Qle_bool a b).

(** ** RoastingScreen.tsx, older revision: a counter of one-second ticks *)

Module Legacy.
Import Js.

Record State := mkState {
  seconds : number;
  isRunning : bool;
  temperatureData : list TemperatureDataPoint;
  currentTemp : number
}.

(** The [useState] initial values. *)
Definition initialState (chargeTemp : number) : State :=
  {| seconds := 0;
     isRunning := false;
     temperatureData := [ mkPoint 0 chargeTemp ];
     currentTemp := chargeTemp |}.

(** The interval callback; the interval only exists while [isRunning]. *)
Definition tick (s : State) : State :=
  if isRunning s then
    let newSeconds := seconds s + 1 in
    let newData := temperatureData s ++ [ mkPoint newSeconds (currentTemp s) ] in
    {| seconds := newSeconds;
       isRunning := isRunning s;
       temperatureData := keepLastHour newData;
       currentTemp := currentTemp s |}
  else s.

Definition handleStart (s : State) : State :=
  {| seconds := seconds s; isRunning := true;
     temperatureData := temperatureData s; currentTemp := currentTemp s |}.

Definition handleStop (s : State) : State :=
  {| seconds := seconds s; isRunning := false;
     temperatureData := temperatureData s; currentTemp := currentTemp s |}.

(** Shared tail of the two temperature handlers: the new temperature is
    stored and, while the timer runs, logged at the current second. *)
Definition setTempAndLog (newTemp : number) (s : State) : State :=
  {| seconds := seconds s;
     isRunning := isRunning s;
     temperatureData :=
       if isRunning s then
         keepLastHour (temperatureData s ++ [ mkPoint (seconds s) newTemp ])
       else temperatureData s;
     currentTemp := newTemp |}.

Definition handleIncreaseTemp (u : TempUnit) (s : State) : State :=
  let increment := tempStep u in
  setTempAndLog (currentTemp s + increment) s.

Definition handleDecreaseTemp (u : TempUnit) (s : State) : State :=
  let decrement := tempStep u in
  setTempAndLog (Math_max 0 (currentTemp s - decrement)) s.

Inductive event :=
| Tick | Start | Stop | Increase | Decrease
| NewChargeTemp (c : number).   (* the [chargeTemp] prop changes: reset *)

Definition step (u : TempUnit) (e : event) (s : State) : State :=
  match e with
  | Tick => tick s
  | Start => handleStart s
  | Stop => handleStop s
  | Increase => handleIncreaseTemp u s
  | Decrease => handleDecreaseTemp u s
  | NewChargeTemp c => initialState c
  end.

Definition run (u : TempUnit) (es : list event) (s : State) : State :=
  fold_left (fun s e => step u e s) es s.

Inductive reachable (p : Props) : State -> Prop :=
| reach_init : reachable p (initialState (chargeTemp p))
| reach_step s e : reachable p s -> reachable p (step (unit_ p) e s).

End Legacy.

(** ** JSON values and localStorage *)

#[local] Unset Elimination Schemes.
Inductive json :=
| JNull
| JBool (b : bool)
| JNum (x : Js.number)
| JStr (s : string)
| JArr (items : list json)
| JObj (fields : list (string * json)).
#[local] Set Elimination Schemes.

(** Property access [o.k] on a parsed value. *)
Fixpoint assoc (k : string) (fields : list (string * json)) : option json :=
  match fields with
  | [] => None
  | (k', v) :: rest => if String.eqb k k' then Some v else assoc k rest
  end.

Definition getField (k : string) (o : json) : option json :=
  match o with JObj fields => assoc k fields | _ => None end.

(** [localStorage]: string keys, one stored value per key. *)
Abbreviation storage := (gmap string json).

(** ** RoastingScreen.tsx, current revision *)

Module Current.
Import Js.

(** The component's state cells.  The type [A] of the series cell is
    [list TemperatureDataPoint] when arrays are taken by value and a
    heap location when their identity matters. *)
Record State {A : Type} := mkState {
  seconds : number;
  isRunning : bool;
  startTime : option number;
  firstCrackTime : option number;
  roastStage : RoastStage;
  temperatureData : A;
  currentTemp : number
}.
Arguments State : clear implicits.
Arguments mkState {A}.

(** The argument of the [onBack] callback. *)
Module OnBack.
Record data {A : Type} := mk {
  temperatureData : A;
  totalTime : number;
  firstCrackTime : option number
}.
Arguments data : clear implicits.
Arguments mk {A}.
End OnBack.

Section Handlers.
Context {A : Type}.
Implicit Type s : State A.

(** [handleStart]; [now] is [Date.now()]. *)
Definition handleStart (now : Z) s : State A :=
  if negb (isRunning s) && (if roastStage s is ready then true else false) then
    mkState (seconds s) true
            (Some (inject_Z now - seconds s * 1000))
            (firstCrackTime s) started (temperatureData s) (currentTemp s)
  else s.

Definition handleFirstCrack s : State A :=
  if roastStage s is started then
    mkState (seconds s) (isRunning s) (startTime s)
            (Some (seconds s)) firstCrack (temperatureData s) (currentTemp s)
  else s.

Definition setCurrentTemp (f : number -> number) s : State A :=
  mkState (seconds s) (isRunning s) (startTime s) (firstCrackTime s)
          (roastStage s) (temperatureData s) (f (currentTemp s)).

Definition handleIncreaseTemp (u : TempUnit) s : State A :=
  let increment := tempStep u in
  setCurrentTemp (fun prevTemp => prevTemp + increment) s.

Definition handleDecreaseTemp (u : TempUnit) s : State A :=
  let decrement := tempStep u in
  setCurrentTemp (fun prevTemp => Math_max 0 (prevTemp - decrement)) s.

(** [handleBackWithConfirmation]: the new state, the localStorage with
    the session's key removed, and the argument passed to [onBack]. *)
Definition handleBackWithConfirmation (key : string) (ls : storage) s
  : State A * storage * OnBack.data A :=
  (mkState (seconds s) false (startTime s) (firstCrackTime s) ended
           (temperatureData s) (currentTemp s),
   delete key ls,
   OnBack.mk (temperatureData s) (seconds s) (firstCrackTime s)).

(** The [onClick] of the session button: one handler per stage. *)
Definition sessionButtonClick (now : Z) (key : string) (ls : storage) s
  : State A * storage * option (OnBack.data A) :=
  match roastStage s with
  | ready => (handleStart now s, ls, None)
  | started => (handleFirstCrack s, ls, None)
  | firstCrack =>
      let '(s', ls', d) := handleBackWithConfirmation key ls s in
      (s', ls', Some d)
  | ended => (s, ls, None)
  end.

End Handlers.

(** *** Arrays by value *)

Abbreviation series := (list TemperatureDataPoint).

(** The [useState] initial values. *)
Definition initialState (p : Props) : State series :=
  mkState 0 false None None ready [ mkPoint 0 (chargeTemp p) ] (chargeTemp p).

(** [prev.length > 0 ? prev[prev.length - 1].time : -1] *)
Definition lastTime (prev : series) : number :=
  match last prev with Some pt => time pt | None => inject_Z (-1) end.

(** The updater passed to [setTemperatureData] by the timer callback. *)
Definition logPoint (elapsed temp : number) (prev : series) : series :=
  if gtb elapsed (lastTime prev) then
    let newData := prev ++ [ mkPoint elapsed temp ] in
    keepLastHour newData
  else prev.

(** The interval callback; the interval exists only while
    [isRunning && startTime !== null]. *)
Definition tick (now : Z) (s : State series) : State series :=
  match isRunning s, startTime s with
  | true, Some t0 =>
      let elapsed := Math_floor ((inject_Z now - t0) / 1000) in
      mkState elapsed (isRunning s) (startTime s) (firstCrackTime s)
              (roastStage s)
              (logPoint elapsed (currentTemp s) (temperatureData s))
              (currentTemp s)
  | _, _ => s
  end.

(** *** Persistence: the [SessionState] written to localStorage *)

Module SessionState.
Record t := mk {
  beanName : string;
  chargeTemp : number;
  unit : TempUnit;
  temperatureData : series;
  currentTemp : number;
  seconds : number;
  isRunning : bool;
  startTime : option number;
  firstCrackTime : option number;
  roastStage : RoastStage
}.
End SessionState.

Definition jsonOfNullable (x : option number) : json :=
  match x with Some v => JNum v | None => JNull end.

Definition jsonOfUnit (u : TempUnit) : json :=
  JStr (match u with UnitC => "C" | UnitF => "F" end).

Definition jsonOfStage (g : RoastStage) : json :=
  JStr (match g with
        | ready => "ready" | started => "started"
        | firstCrack => "firstCrack" | ended => "ended"
        end).

Definition jsonOfPoint (pt : TemperatureDataPoint) : json :=
  JObj [ ("time", JNum (time pt)); ("temperature", JNum (temperature pt)) ].

(** [JSON.stringify(state)], up to the text layer. *)
Definition stringify (x : SessionState.t) : json :=
  JObj [ ("beanName", JStr (SessionState.beanName x));
         ("chargeTemp", JNum (SessionState.chargeTemp x));
         ("unit", jsonOfUnit (SessionState.unit x));
         ("temperatureData", JArr (map jsonOfPoint (SessionState.temperatureData x)));
         ("currentTemp", JNum (SessionState.currentTemp x));
         ("seconds", JNum (SessionState.seconds x));
         ("isRunning", JBool (SessionState.isRunning x));
         ("startTime", jsonOfNullable (SessionState.startTime x));
         ("firstCrackTime", jsonOfNullable (SessionState.firstCrackTime x));
         ("roastStage", jsonOfStage (SessionState.roastStage x)) ].

(** The object literal built by the save effect. *)
Definition sessionState (p : Props) (s : State series) : SessionState.t :=
  SessionState.mk (beanName p) (chargeTemp p) (unit_ p)
                  (temperatureData s) (currentTemp s) (seconds s)
                  false        (* never save running state *)
                  None
                  (firstCrackTime s) (roastStage s).

(** The save effect, once the mount effect has run. *)
Definition saveEffect (p : Props) (key : string) (s : State series)
                      (ls : storage) : storage :=
  <[ key := stringify (sessionState p s) ]> ls.

(** Reading the fields of the parsed blob at the types the component
    declares for them; [None] when a field is missing or has another
    shape (the component does not check, and is not modelled there). *)
Definition asNumber (j : json) : option number :=
  match j with JNum x => Some x | _ => None end.

Definition asNullable (j : json) : option (option number) :=
  match j with JNum x => Some (Some x) | JNull => Some None | _ => None end.

Definition asStage (j : json) : option RoastStage :=
  match j with
  | JStr s =>
      if String.eqb s "ready" then Some ready
      else if String.eqb s "started" then Some started
      else if String.eqb s "firstCrack" then Some firstCrack
      else if String.eqb s "ended" then Some ended
      else None
  | _ => None
  end.

Definition asPoint (j : json) : option TemperatureDataPoint :=
  t ← getField "time" j ≫= asNumber;
  v ← getField "temperature" j ≫= asNumber;
  Some (mkPoint t v).

Definition asSeries (j : json) : option series :=
  match j with JArr items => mapM asPoint items | _ => None end.

(** The restore branch of the mount effect. *)
Definition restore (savedSession : json) : option (State series) :=
  data ← getField "temperatureData" savedSession ≫= asSeries;
  temp ← getField "currentTemp" savedSession ≫= asNumber;
  secs ← getField "seconds" savedSession ≫= asNumber;
  fc ← getField "firstCrackTime" savedSession ≫= asNullable;
  stage ← getField "roastStage" savedSession ≫= asStage;
  Some (mkState secs false None fc stage data temp).

(** The mount effect, applied to the initial render's state. *)
Definition mountEffect (key : string) (now : Z) (ls : storage)
                       (s : State series) : option (State series) :=
  match ls !! key with
  | Some savedSession => restore savedSession
  | None =>
      (* auto-start timer for new sessions *)
      Some (mkState (seconds s) true (Some (inject_Z now))
                    (firstCrackTime s) started (temperatureData s)
                    (currentTemp s))
  end.

(** [`roasting_session_${beanName}_${Date.now()}`] *)
Definition sessionKey (beanName : string) (now : Z) : string :=
  ("roasting_session_" ++ beanName ++ "_" ++ pretty now)%string.

(** *** The mounted component with its localStorage *)

Record World := mkWorld {
  st : State series;
  ls : storage
}.

(** Mounting: initial render, mount effect, then the save effect of the
    render that follows. *)
Definition mount (p : Props) (key : string) (now : Z) (ls0 : storage)
  : option World :=
  s ← mountEffect key now ls0 (initialState p);
  Some (mkWorld s (saveEffect p key s ls0)).

Inductive event :=
| Tick (now : Z)
| Start (now : Z)
| FirstCrack
| Increase
| Decrease
| End_
| Click (now : Z).

(** One event: the handler, then the save effect; ending the session
    removes the key and unmounts the component, so nothing is saved. *)
Definition step (p : Props) (key : string) (e : event) (w : World) : World :=
  let saved s := mkWorld s (saveEffect p key s (ls w)) in
  match e with
  | Tick now => saved (tick now (st w))
  | Start now => saved (handleStart now (st w))
  | FirstCrack => saved (handleFirstCrack (st w))
  | Increase => saved (handleIncreaseTemp (unit_ p) (st w))
  | Decrease => saved (handleDecreaseTemp (unit_ p) (st w))
  | End_ =>
      let '(s', ls', _) := handleBackWithConfirmation key (ls w) (st w) in
      mkWorld s' ls'
  | Click now =>
      match sessionButtonClick now key (ls w) (st w) with
      | (s', ls', Some _) => mkWorld s' ls'
      | (s', _, None) => saved s'
      end
  end.

Definition run (p : Props) (key : string) (es : list event) (w : World) : World :=
  fold_left (fun w e => step p key e w) es w.

(** The worlds a session can be in: mounted with no blob under its key,
    changed by an event, or mounted again over its own localStorage. *)
Inductive reachable (p : Props) (key : string) : World -> Prop :=
| reach_fresh ls0 now w :
    ls0 !! key = None -> mount p key now ls0 = Some w -> reachable p key w
| reach_step w e :
    reachable p key w -> reachable p key (step p key e w)
| reach_remount w now w' :
    reachable p key w -> mount p key now (ls w) = Some w' -> reachable p key w'.

End Current.

(** ** App.tsx: what becomes of the data passed to [onBack] *)

Module App.
Import Js.

Module SummaryData.
Record t {A : Type} := mk {
  beanName : string;
  chargeTemp : number;
  unit : TempUnit;
  temperatureData : A;
  totalTime : number;
  firstCrackTime : option number
}.
Arguments t : clear implicits.
Arguments mk {A}.
End SummaryData.

Record State {A : Type} := mkState {
  session : option Props;
  summary : option (SummaryData.t A)
}.
Arguments State : clear implicits.
Arguments mkState {A}.

Definition handleStartSession {A} (beanName : string) (chargeTemp : number)
    (unit : TempUnit) (a : State A) : State A :=
  mkState (Some (mkProps beanName chargeTemp unit)) None.

Definition handleEndSession {A} (data : Current.OnBack.data A) (a : State A)
  : State A :=
  match session a with
  | Some sess =>
      mkState None
        (Some (SummaryData.mk (beanName sess) (chargeTemp sess) (unit_ sess)
                 (Current.OnBack.temperatureData data)
                 (Current.OnBack.totalTime data)
                 (Current.OnBack.firstCrackTime data)))
  | None => a
  end.

Definition handleBackToSetup {A} (a : State A) : State A := mkState None None.

End App.

(** ** The current revision with arrays as heap objects

    The series cell holds a reference; [[...prev, pt]], [slice] and
    [JSON.parse] allocate, nothing writes into an existing array.  Points
    are object literals that no code writes to after creation and are
    kept by value. *)

Module Refs.
Import Js Current.

Definition loc := positive.
Abbreviation heap := (gmap loc (list TemperatureDataPoint)).

Definition alloc (a : list TemperatureDataPoint) (h : heap) : loc * heap :=
  let l := fresh (dom h) in (l, <[ l := a ]> h).

Record World := mkWorld {
  hp : heap;
  st : State loc;
  ls : storage
}.

(** Replace the series cell. *)
Definition withSeries {A B} (x : B) (s : State A) : State B :=
  mkState (seconds s) (isRunning s) (startTime s) (firstCrackTime s)
          (roastStage s) x (currentTemp s).

(** The by-value world a heap world stands for. *)
Definition view (w : World) : option Current.World :=
  a ← hp w !! temperatureData (st w);
  Some (Current.mkWorld (withSeries a (st w)) (ls w)).

(** The timer callback, with the allocations of its updater. *)
Definition tick (now : Z) (h : heap) (s : State loc) : heap * State loc :=
  match isRunning s, startTime s, h !! temperatureData s with
  | true, Some t0, Some prev =>
      let elapsed := Math_floor ((inject_Z now - t0) / 1000) in
      let timed := mkState elapsed (isRunning s) (startTime s)
                           (firstCrackTime s) (roastStage s)
                           (temperatureData s) (currentTemp s) in
      if gtb elapsed (lastTime prev) then
        let content := prev ++ [ mkPoint elapsed (currentTemp s) ] in
        let '(newData, h1) := alloc content h in
        if (3600 <? length content)%nat then
          let '(sliced, h2) := alloc (sliceLast 3600 content) h1 in
          (h2, withSeries sliced timed)
        else (h1, withSeries newData timed)
      else (h, timed)
  | _, _, _ => (h, s)
  end.

(** The save effect reads the array and allocates nothing. *)
Definition saveEffect (p : Props) (key : string) (h : heap) (s : State loc)
                      (ls0 : storage) : storage :=
  match h !! temperatureData s with
  | Some a => Current.saveEffect p key (withSeries a s) ls0
  | None => ls0
  end.

(** Mounting: the initial array is allocated by the first render, the
    restored one by [JSON.parse]. *)
Definition mount (p : Props) (key : string) (now : Z) (h : heap)
                 (ls0 : storage) : option World :=
  let '(init, h1) := alloc [ mkPoint 0 (chargeTemp p) ] h in
  match ls0 !! key with
  | Some savedSession =>
      r ← restore savedSession;
      let '(parsed, h2) := alloc (temperatureData r) h1 in
      let s := withSeries parsed r in
      Some (mkWorld h2 s (saveEffect p key h2 s ls0))
  | None =>
      let s := mkState 0 true (Some (inject_Z now)) None started init
                       (chargeTemp p) in
      Some (mkWorld h1 s (saveEffect p key h1 s ls0))
  end.

Definition step (p : Props) (key : string) (e : event) (w : World) : World :=
  let saved h s := mkWorld h s (saveEffect p key h s (ls w)) in
  match e with
  | Tick now => let '(h, s) := tick now (hp w) (st w) in saved h s
  | Start now => saved (hp w) (handleStart now (st w))
  | FirstCrack => saved (hp w) (handleFirstCrack (st w))
  | Increase => saved (hp w) (handleIncreaseTemp (unit_ p) (st w))
  | Decrease => saved (hp w) (handleDecreaseTemp (unit_ p) (st w))
  | End_ =>
      let '(s', ls', _) := handleBackWithConfirmation key (ls w) (st w) in
      mkWorld (hp w) s' ls'
  | Click now =>
      match sessionButtonClick now key (ls w) (st w) with
      | (s', ls', Some _) => mkWorld (hp w) s' ls'
      | (s', _, None) => saved (hp w) s'
      end
  end.

Definition run (p : Props) (key : string) (es : list event) (w : World) : World :=
  fold_left (fun w e => step p key e w) es w.

(** Ending a session from the roasting screen: the handler, then the
    [onBack] callback, which is [App.handleEndSession]. *)
Definition endSession (key : string) (w : World) (a : App.State loc)
  : World * App.State loc :=
  let '(s', ls', d) := handleBackWithConfirmation key (ls w) (st w) in
  (mkWorld (hp w) s' ls', App.handleEndSession d a).

End Refs.

(** ** utils/exportUtils.ts and the screens' [formatTime] *)

Module ExportUtils.
Import Js.

(** [n.toString()] for an integer [n]. *)
Definition decOfN (n : N) : string :=
  DecimalString.NilEmpty.string_of_uint (N.to_uint n).

Definition toStringInt (n : Z) : string :=
  if (n <? 0)%Z then String "-" (decOfN (Z.to_N (- n))) else decOfN (Z.to_N n).

(** [formatTime] on whole seconds: [Math.floor(totalSeconds / 60)] is the
    floored quotient, [totalSeconds % 60] the remainder with the sign of
    [totalSeconds]. *)
Definition formatTime (totalSeconds : Z) : string :=
  let mins := (totalSeconds / 60)%Z in
  let secs := Z.rem totalSeconds 60 in
  (padStart 2 "0" (toStringInt mins) ++ ":" ++ padStart 2 "0" (toStringInt secs))%string.

End ExportUtils.

(** ** SummaryScreen.tsx and RoastingScreen.tsx: the chart's derived values *)

Module Charts.
Import Js.

(** [Math.ceil], as a number. *)
Definition Math_ceil (x : number) : number := inject_Z (Qceiling x).

(** [Math.min(...xs)] and [Math.max(...xs)]; [None] is the infinity they
    return for no argument. *)
Definition Math_min_all (xs : list number) : option number :=
  fold_left (fun acc x =>
               match acc with
               | None => Some x
               | Some m => Some (if Qle_bool x m then x else m)
               end) xs None.

Definition Math_max_all (xs : list number) : option number :=
  fold_left (fun acc x =>
               match acc with
               | None => Some x
               | Some m => Some (if Qle_bool m x then x else m)
               end) xs None.

Definition minTemp (temperatureData : list TemperatureDataPoint) : option number :=
  Math_min_all (map temperature temperatureData).

Definition maxTemp (temperatureData : list TemperatureDataPoint) : option number :=
  Math_max_all (map temperature temperatureData).

(** [temperatureData[temperatureData.length - 1]?.temperature || chargeTemp]:
    a missing point and the falsy temperature 0 both give [chargeTemp]. *)
Definition finalTemp (temperatureData : list TemperatureDataPoint)
                     (chargeTemp : number) : number :=
  match last temperatureData with
  | Some pt => if Qeq_bool (temperature pt) 0 then chargeTemp else temperature pt
  | None => chargeTemp
  end.

(** The Y axis: [[Math.floor(minTemp - 5), Math.ceil(maxTemp + 5)]], with
    [None] for the infinite bounds of an empty series. *)
Definition yDomain (temperatureData : list TemperatureDataPoint)
  : option (number * number) :=
  lo ← minTemp temperatureData;
  hi ← maxTemp temperatureData;
  Some (Math_floor (lo - 5), Math_ceil (hi + 5)).

(** [Array.from({ length: n }, (_, i) => i * 60)]; a negative length
    counts as 0. *)
Definition minuteMarks (n : Z) : list number :=
  map (fun i => inject_Z (Z.of_nat i) * 60) (seq 0 (Z.to_nat n)).

(** The X axis ticks. *)
Definition xTicks (temperatureData : list TemperatureDataPoint) : list number :=
  match last temperatureData with
  | Some pt =>
      filter (fun tick => Qle_bool tick (time pt + 60) = true)
             (minuteMarks (Qfloor (time pt / 60) + 2))
  | None => [ 0 ]
  end.

End Charts.

(** ** utils/cacheManager.ts

    localStorage holds raw strings here.  The Cache API and the service
    workers are browser objects outside the modelled state; their two
    helpers catch their own errors, so the steps after them always run. *)

Module CacheManager.

Definition APP_VERSION : string := "1.5.1".
Definition VERSION_KEY : string := "app_version".

Abbreviation rawStorage := (gmap string string).

(** [key.startsWith('roasting_session_')] *)
Definition isSessionKey (key : string) : bool :=
  String.prefix "roasting_session_" key.

(** The keys collected by the first loop. *)
Definition currentSessionKeys (ls : rawStorage) : list string :=
  filter (fun key => isSessionKey key = true) (map fst (map_to_list ls)).

(** The [sessionData] object: every collected key whose value is truthy,
    that is, not the empty string. *)
Definition sessionData (ls : rawStorage) : rawStorage :=
  fold_left (fun data key =>
               match ls !! key with
               | Some value =>
                   if String.eqb value "" then data else <[ key := value ]> data
               | None => data
               end) (currentSessionKeys ls) ∅.

(** [localStorage.clear()], then one [setItem] per saved entry. *)
Definition clearOldLocalStorage (ls : rawStorage) : rawStorage :=
  fold_left (fun store '(key, value) => <[ key := value ]> store)
            (map_to_list (sessionData ls)) ∅.

(** The localStorage left by [initializeCacheManager]. *)
Definition initializeCacheManager (ls : rawStorage) : rawStorage :=
  let storedVersion := ls !! VERSION_KEY in
  if decide (storedVersion = Some APP_VERSION) then ls
  else <[ VERSION_KEY := APP_VERSION ]> (clearOldLocalStorage ls).

(** The localStorage left by [forceClearCacheAndReload]. *)
Definition forceClearCacheAndReload (ls : rawStorage) : rawStorage := ∅.

End CacheManager.

(** ** Auxiliary definitions used to state and prove the properties *)

Module DtrAux.
Import Js Dtr.

(** A channel between two parsed stops. *)
Definition mixZ (a b : Z) (ratio : number) : Z :=
  Math_round (inject_Z a + (inject_Z b - inject_Z a) * ratio).

(** The channels [getDTRColor] computes, as numbers: the tan stop at 0,
    the first segment up to 30, the second one above. *)
Definition dtrChannels (dtr : number) : Z * Z * Z :=
  if Qeq_bool dtr 0 then (218, 160, 109)%Z
  else if Qle_bool dtr 30 then
    (mixZ 218 123 (dtr / 30), mixZ 160 63 (dtr / 30), mixZ 109 0 (dtr / 30))
  else
    (mixZ 123 0 ((dtr - 30) / 70), mixZ 63 0 ((dtr - 30) / 70),
     mixZ 0 0 ((dtr - 30) / 70)).

(** The string [interpolateColor] prints for three channel values. *)
Definition fmt (c : Z * Z * Z) : string :=
  let '(r, g, b) := c in
  ("#" ++ hex2 (Some r) ++ hex2 (Some g) ++ hex2 (Some b))%string.

(** Printing a byte with [hex2] gives two characters that [parseInt16]
    reads back. *)
Definition byteRoundTrips (k : nat) : bool :=
  let n := Z.of_nat k in
  match hex2 (Some n) with
  | String c1 (String c2 EmptyString) =>
      if parseInt16 (String c1 (String c2 EmptyString)) is Some m
      then (m =? n)%Z else false
  | _ => false
  end.

Definition isByte (n : Z) : Prop := (0 <= n <= 255)%Z.

Definition some3 (c : Z * Z * Z) : option Z * option Z * option Z :=
  let '(r, g, b) := c in (Some r, Some g, Some b).


(** Where a percentage of [0,100] falls in [getDTRColor]. *)
Inductive region (p : number) : Prop :=
| at_zero : p == 0 -> region p
| first_segment : 0 < p -> p <= 30 -> region p
| second_segment : 30 < p -> p <= 100 -> region p.

End DtrAux.

Module RecorderAux.
Import Js Current.

(** What [restore] rebuilds from the blob written for [s]: [s] with the
    timer stopped. *)
Definition stopped (s : State series) : State series :=
  mkState (seconds s) false None (firstCrackTime s) (roastStage s)
          (temperatureData s) (currentTemp s).

(** The session's key is either absent from localStorage or holds the
    blob of the current state. *)
Definition savedOrAbsent (p : Props) (key : string) (w : World) : Prop :=
  ls w !! key = None \/
  ls w !! key = Some (stringify (sessionState p (st w))).

Record invariant (p : Props) (key : string) (w : World) : Prop := {
  inv_length : (length (temperatureData (st w)) <= 3600)%nat;
  inv_stage : roastStage (st w) <> ready;
  inv_saved : savedOrAbsent p key w
}.

(** Every entry of [h] is still in [h'], unchanged. *)
Definition preserved (h h' : Refs.heap) : Prop :=
  forall l a, h !! l = Some a -> h' !! l = Some a.

(** A reset of the older revision to a non-negative charge temperature
    (the setup form only submits positive ones). *)
Definition chargeOk (e : Legacy.event) : Prop :=
  match e with Legacy.NewChargeTemp c => 0 <= c | _ => True end.

(** A session used in the examples: just mounted, ... *)
Definition kenya : Props := mkProps "Kenya" 20 UnitC.

Definition w0 : World :=
  mkWorld
    (mkState 0 true (Some 0) None started [ mkPoint 0 20 ] 20)
    (saveEffect kenya "k"
       (mkState 0 true (Some 0) None started [ mkPoint 0 20 ] 20) ∅).

(** ... five seconds in, ... *)
Definition paused : State series :=
  mkState 5 true (Some 0) None started [ mkPoint 0 20; mkPoint 5 20 ] 20.

(** ... and, with arrays on the heap, one second in with the first crack
    marked, under an [App] that shows the roasting screen. *)
Definition crackedWorld : option Refs.World :=
  w ← Refs.mount kenya "k" 0 ∅ ∅;
  Some (Refs.step kenya "k" FirstCrack (Refs.step kenya "k" (Tick 1000) w)).

Definition roasting : App.State Refs.loc := App.mkState (Some kenya) None.

End RecorderAux.

(** ** Further auxiliary definitions *)

Module MoreAux.
Import Js Dtr DtrAux Current ExportUtils CacheManager.

(** Channel triples whose components are bytes, and a triple lying
    componentwise between two others. *)
Definition byte3 (c : Z * Z * Z) : Prop :=
  isByte c.1.1 /\ isByte c.1.2 /\ isByte c.2.

Definition between3 (c1 c2 c : Z * Z * Z) : Prop :=
  (Z.min c1.1.1 c2.1.1 <= c.1.1 <= Z.max c1.1.1 c2.1.1)%Z /\
  (Z.min c1.1.2 c2.1.2 <= c.1.2 <= Z.max c1.1.2 c2.1.2)%Z /\
  (Z.min c1.2 c2.2 <= c.2 <= Z.max c1.2 c2.2)%Z.

(** Reading a string of decimal digits, leading zeros allowed. *)
Definition decodeN (s : string) : option N :=
  match DecimalString.NilEmpty.uint_of_string s with
  | Some d => Some (N.of_uint d)
  | None => None
  end.

Definition twoChars (k : nat) : bool :=
  (String.length (padStart 2 "0" (decOfN (N.of_nat k))) =? 2)%nat.

(** One point is logged strictly before another. *)
Definition earlier (a b : TemperatureDataPoint) : Prop := time a < time b.

(** A point logged at a whole, non-negative number of seconds. *)
Definition wholeTime (pt : TemperatureDataPoint) : Prop :=
  exists z : Z, (0 <= z)%Z /\ time pt = inject_Z z.

Record wellFormed (data : series) : Prop := {
  wf_nonempty : data <> [];
  wf_sorted : Sorted.StronglySorted earlier data;
  wf_whole : Forall wholeTime data
}.

(** The order of the stages. *)
Definition rank (g : RoastStage) : nat :=
  match g with ready => 0 | started => 1 | firstCrack => 2 | ended => 3 end.

(** What every reachable world of the current revision satisfies. *)
Record sessionInv (w : World) : Prop := {
  si_series : wellFormed (temperatureData (st w));
  si_seconds : exists z : Z, seconds (st w) = inject_Z z;
  si_uncracked :
    (rank (roastStage (st w)) <= 1)%nat -> firstCrackTime (st w) = None;
  si_cracked :
    roastStage (st w) = firstCrack -> exists t, firstCrackTime (st w) = Some t
}.

(** The timer is stopped and the stage offers no way to start it. *)
Definition halted (s : State series) : Prop :=
  isRunning s = false /\ roastStage s <> ready.

(** One point is logged no later than another. *)
Definition notLater (a b : TemperatureDataPoint) : Prop := time a <= time b.

(** What every reachable state of the older revision satisfies: the
    series ends at the current second and its times never decrease. *)
Record legacyInv (s : Legacy.State) : Prop := {
  li_last : exists front pt,
      Legacy.temperatureData s = front ++ [ pt ] /\ time pt = Legacy.seconds s;
  li_sorted : Sorted.StronglySorted notLater (Legacy.temperatureData s)
}.

(** What [clearOldLocalStorage] leaves under a key. *)
Definition kept (ls : rawStorage) (key : string) : option string :=
  if isSessionKey key then
    match ls !! key with
    | Some value => if String.eqb value "" then None else Some value
    | None => None
    end
  else None.

(** Neither the current temperature nor any logged one is negative. *)
Definition warm (w : World) : Prop :=
  0 <= currentTemp (st w) /\
  Forall (fun pt => 0 <= temperature pt) (temperatureData (st w)).

(** A localStorage written by an earlier version of the app. *)
Definition oldStore : CacheManager.rawStorage :=
  {[ "app_version" := "1.4.0";
     "roasting_session_Kenya_1700000000000" := "{}";
     "theme" := "dark" ]}.

End MoreAux.

(** ** Properties of the derived metrics *)

Module DtrFacts.
Import Js Dtr DtrAux.


Lemma positive_not_zero (x : number) : 0 < x -> Qeq_bool x 0 = false.
Proof.
  intros Hx. destruct (Qeq_bool x 0) eqn:E; [| reflexivity].
  apply Qeq_bool_eq in E. lra.
Qed.



(** The scenario of the specification: first crack at 60 s of 300 s. *)
Example dtr_scenario : Dtr.calculateDTR (Some 60) 300 == 80.
Proof. reflexivity. Qed.

Lemma round_bounds (lo hi : Z) (x : number) :
  inject_Z lo <= x -> x <= inject_Z hi -> (lo <= Math_round x <= hi)%Z.
Proof.
  intros Hlo Hhi. unfold Math_round. split.
  - rewrite <- (Qfloor_Z lo). apply Qfloor_resp_le. lra.
  - pose proof (Qfloor_le (x + (1 # 2))) as Hf.
    destruct (Z_le_gt_dec (Qfloor (x + (1 # 2))) hi) as [|Hgt]; [assumption |].
    assert (Hz : (hi + 1 <= Qfloor (x + (1 # 2)))%Z) by lia.
    rewrite Zle_Qle, inject_Z_plus in Hz.
    change (inject_Z 1) with 1 in Hz. lra.
Qed.


Lemma round_Qeq (x y : number) : x == y -> Math_round x = Math_round y.
Proof. intros H. unfold Math_round. apply Qfloor_comp. rewrite H. reflexivity. Qed.

Lemma seg1 ratio : interpolateColor "#DAA06D" "#7B3F00" ratio
   = fmt (mixZ 218 123 ratio, mixZ 160 63 ratio, mixZ 109 0 ratio).
Proof. reflexivity. Qed.
Lemma seg2 ratio : interpolateColor "#7B3F00" "#000000" ratio
   = fmt (mixZ 123 0 ratio, mixZ 63 0 ratio, mixZ 0 0 ratio).
Proof. reflexivity. Qed.

Lemma bytes_round_trip : forallb byteRoundTrips (seq 0 256) = true.
Proof. vm_compute. reflexivity. Qed.

Lemma hex2_byte (n : Z) : isByte n ->
  exists c1 c2, hex2 (Some n) = String c1 (String c2 EmptyString)
     /\ parseInt16 (String c1 (String c2 EmptyString)) = Some n.
Proof.
  intros [H0 H255].
  pose proof bytes_round_trip as H. rewrite forallb_forall in H.
  specialize (H (Z.to_nat n)).
  assert (Hin : In (Z.to_nat n) (seq 0 256)) by (apply in_seq; lia).
  specialize (H Hin). unfold byteRoundTrips in H.
  rewrite Z2Nat.id in H by lia.
  destruct (hex2 (Some n)) as [| c1 [| c2 [| ? ?]]]; try discriminate.
  exists c1, c2. split; [reflexivity |].
  destruct (parseInt16 (String c1 (String c2 EmptyString))); [| discriminate].
  f_equal. lia.
Qed.

Lemma channels_fmt (r g b : Z) : isByte r -> isByte g -> isByte b ->
  channels (fmt (r, g, b)) = (Some r, Some g, Some b).
Proof.
  intros Hr Hg Hb.
  destruct (hex2_byte r Hr) as (r1 & r2 & Er & Pr).
  destruct (hex2_byte g Hg) as (g1 & g2 & Eg & Pg).
  destruct (hex2_byte b Hb) as (b1 & b2 & Eb & Pb).
  unfold fmt. rewrite Er, Eg, Eb. unfold channels. cbv -[parseInt16].
  rewrite Pr, Pg, Pb. reflexivity.
Qed.

Lemma mixZ_bounds (a b : Z) (ratio : number) :
  (b <= a)%Z -> 0 <= ratio -> ratio <= 1 -> (b <= mixZ a b ratio <= a)%Z.
Proof.
  intros Hba H0 H1. rewrite Zle_Qle in Hba.
  apply round_bounds; nra.
Qed.


Lemma mixZ_Qeq (a b : Z) (r1 r2 : number) : r1 == r2 -> mixZ a b r1 = mixZ a b r2.
Proof. intros H. apply round_Qeq. rewrite H. reflexivity. Qed.

Lemma le_true (x y : number) : x <= y -> Qle_bool x y = true.
Proof. apply Qle_bool_iff. Qed.
Lemma le_false (x y : number) : y < x -> Qle_bool x y = false.
Proof.
  intros H. destruct (Qle_bool x y) eqn:E; [| reflexivity].
  apply Qle_bool_iff in E. lra.
Qed.
Lemma eq_true (x y : number) : x == y -> Qeq_bool x y = true.
Proof. apply Qeq_bool_iff. Qed.
Lemma eq_false (x y : number) : ~ x == y -> Qeq_bool x y = false.
Proof.
  intros H. destruct (Qeq_bool x y) eqn:E; [| reflexivity].
  apply Qeq_bool_iff in E. contradiction.
Qed.

Lemma region_cases (p : number) : 0 <= p -> p <= 100 -> region p.
Proof.
  intros H0 H100.
  destruct (Qlt_le_dec 0 p) as [Hpos | Hle].
  - destruct (Qlt_le_dec 30 p); [apply second_segment | apply first_segment]; assumption.
  - apply at_zero. lra.
Qed.

Lemma dtrChannels_zero p : p == 0 -> dtrChannels p = (218, 160, 109)%Z.
Proof. intros H. unfold dtrChannels. rewrite (eq_true _ _ H). reflexivity. Qed.

Lemma dtrChannels_first p : 0 < p -> p <= 30 ->
  dtrChannels p = (mixZ 218 123 (p / 30), mixZ 160 63 (p / 30), mixZ 109 0 (p / 30)).
Proof.
  intros H0 H30. unfold dtrChannels.
  rewrite eq_false by lra. rewrite le_true by assumption. reflexivity.
Qed.

Lemma dtrChannels_second p : 30 < p ->
  dtrChannels p = (mixZ 123 0 ((p - 30) / 70), mixZ 63 0 ((p - 30) / 70),
                   mixZ 0 0 ((p - 30) / 70)).
Proof.
  intros H30. unfold dtrChannels.
  rewrite eq_false by lra. rewrite le_false by assumption. reflexivity.
Qed.

Lemma div_bounds (x d : number) :
  0 < d -> 0 <= x -> x <= d -> 0 <= x / d /\ x / d <= 1.
Proof.
  intros Hd H0 H1. split.
  - apply Qle_shift_div_l; [assumption | lra].
  - apply Qle_shift_div_r; [assumption | lra].
Qed.


Lemma dtrChannels_within p : 0 <= p -> p <= 100 ->
  match dtrChannels p with
  | (r, g, b) => isByte r /\ isByte g /\ isByte b
  end.
Proof.
  intros H0 H100. unfold isByte.
  destruct (region_cases p H0 H100) as [Hz | Hp H30 | H30 _].
  - rewrite (dtrChannels_zero p Hz). lia.
  - rewrite (dtrChannels_first p Hp H30).
    destruct (div_bounds p 30) as [Ha Hb]; [reflexivity | lra | assumption |].
    pose proof (mixZ_bounds 218 123 _ ltac:(lia) Ha Hb).
    pose proof (mixZ_bounds 160 63 _ ltac:(lia) Ha Hb).
    pose proof (mixZ_bounds 109 0 _ ltac:(lia) Ha Hb). lia.
  - rewrite (dtrChannels_second p H30).
    destruct (div_bounds (p - 30) 70) as [Ha Hb]; [reflexivity | lra | lra |].
    pose proof (mixZ_bounds 123 0 _ ltac:(lia) Ha Hb).
    pose proof (mixZ_bounds 63 0 _ ltac:(lia) Ha Hb).
    pose proof (mixZ_bounds 0 0 _ ltac:(lia) Ha Hb). lia.
Qed.

Lemma getDTRColor_channels p : 0 <= p -> p <= 100 ->
  channels (getDTRColor p) = some3 (dtrChannels p).
Proof.
  intros H0 H100. pose proof (dtrChannels_within p H0 H100) as Hb.
  unfold getDTRColor, dtrChannels in *.
  destruct (Qeq_bool p 0); [reflexivity |].
  destruct (Qle_bool p 30); cbv zeta.
  - rewrite seg1. destruct Hb as (? & ? & ?). apply channels_fmt; assumption.
  - rewrite seg2. destruct Hb as (? & ? & ?). apply channels_fmt; assumption.
Qed.


Lemma getDTRColor_Qeq p q : p == q -> getDTRColor p = getDTRColor q.
Proof.
  intros H. unfold getDTRColor.
  replace (Qeq_bool q 0) with (Qeq_bool p 0).
  2:{ destruct (Qeq_bool p 0) eqn:E.
      - symmetry. apply eq_true. apply Qeq_bool_iff in E. lra.
      - symmetry. apply eq_false. intros Hq.
        assert (Hp : p == 0) by lra. apply eq_true in Hp. congruence. }
  replace (Qle_bool q 30) with (Qle_bool p 30).
  2:{ destruct (Qle_bool p 30) eqn:E.
      - symmetry. apply le_true. apply Qle_bool_iff in E. lra.
      - symmetry. apply le_false.
        destruct (Qlt_le_dec 30 q) as [|Hle]; [assumption |].
        assert (Hp : p <= 30) by lra. apply le_true in Hp. congruence. }
  destruct (Qeq_bool p 0); [reflexivity |].
  destruct (Qle_bool p 30); cbv zeta.
  - rewrite !seg1. unfold fmt.
    rewrite (mixZ_Qeq 218 123 (p / 30) (q / 30)), (mixZ_Qeq 160 63 (p / 30) (q / 30)),
      (mixZ_Qeq 109 0 (p / 30) (q / 30)); try reflexivity; rewrite H; reflexivity.
  - rewrite !seg2. unfold fmt.
    rewrite (mixZ_Qeq 123 0 ((p - 30) / 70) ((q - 30) / 70)),
      (mixZ_Qeq 63 0 ((p - 30) / 70) ((q - 30) / 70)),
      (mixZ_Qeq 0 0 ((p - 30) / 70) ((q - 30) / 70));
      try reflexivity; rewrite H; reflexivity.
Qed.

Lemma clamp100_id p : 0 <= p -> p <= 100 -> clamp100 p == p.
Proof.
  intros H0 H100. unfold clamp100.
  rewrite (Q.min_r 100 p) by assumption. apply Q.max_r. assumption.
Qed.

(** C7, as the code has it.  [getDTRColor] does not clamp.  On [0,100],
    where clamping changes nothing, it returns the colour of the clamped
    input and every channel is a byte; outside it extrapolates the
    neighbouring segment: [-10] gives [#fac091] and [200] gives the
    string [#-b0-5a00]. *)
Theorem getDTRColor_no_clamp :
  (forall p : number,
      0 <= p -> p <= 100 ->
      getDTRColor p = getDTRColor (clamp100 p) /\
      exists r g b,
        channels (getDTRColor p) = (Some r, Some g, Some b) /\
        isByte r /\ isByte g /\ isByte b) /\
  getDTRColor (-10) = "#fac091" /\
  getDTRColor 200 = "#-b0-5a00".
Proof.
  split; [| split; vm_compute; reflexivity].
  intros p H0 H100. split.
  - apply getDTRColor_Qeq. symmetry. apply clamp100_id; assumption.
  - pose proof (dtrChannels_within p H0 H100) as Hb.
    pose proof (getDTRColor_channels p H0 H100) as Hc.
    destruct (dtrChannels p) as [[r g] b].
    exists r, g, b. split; [exact Hc | exact Hb].
Qed.

Lemma getDTRColor_no_clamp_witness :
  0 <= 45 /\ 45 <= 100 /\ getDTRColor 45 = getDTRColor (clamp100 45).
Proof.
  assert (H0 : 0 <= 45) by (vm_compute; discriminate).
  assert (H1 : 45 <= 100) by (vm_compute; discriminate).
  split; [exact H0 | split; [exact H1 |]].
  exact (proj1 (proj1 getDTRColor_no_clamp 45 H0 H1)).
Defined.

(** C7 fails as stated: below 0 and above 100 the colour is not the one
    of the clamped percentage. *)
Lemma getDTRColor_clamp_counterexample :
  getDTRColor (-10) <> getDTRColor (clamp100 (-10)) /\
  getDTRColor 200 <> getDTRColor (clamp100 200).
Proof. split; vm_compute; discriminate. Qed.




End DtrFacts.

(** ** The series cap *)

Section Slices.
Context {A : Type}.
Implicit Types (a prev : list A) (x : A).

Lemma sliceLast_length n a : length (sliceLast n a) = Nat.min n (length a).
Proof. unfold sliceLast. rewrite length_skipn. lia. Qed.

Lemma keepLastHour_drop a : keepLastHour a = skipn (length a - 3600) a.
Proof.
  unfold keepLastHour, sliceLast.
  destruct (Nat.ltb_spec 3600 (length a)) as [Hlt | Hge]; [reflexivity |].
  replace (length a - 3600)%nat with 0%nat by lia. reflexivity.
Qed.

Lemma keepLastHour_length a : (length (keepLastHour a) <= 3600)%nat.
Proof. rewrite keepLastHour_drop, length_skipn. lia. Qed.

Lemma skipn_snoc k prev x :
  (k <= length prev)%nat -> skipn k (prev ++ [x]) = skipn k prev ++ [x].
Proof.
  intros Hk. rewrite skipn_app.
  replace (k - length prev)%nat with 0%nat by lia. reflexivity.
Qed.

Lemma keepLastHour_snoc prev x :
  keepLastHour (prev ++ [x]) = skipn (length prev + 1 - 3600) prev ++ [x].
Proof.
  rewrite keepLastHour_drop, length_app. cbn [length].
  apply skipn_snoc. lia.
Qed.

Lemma keepLastHour_last prev x : last (keepLastHour (prev ++ [x])) = Some x.
Proof. rewrite keepLastHour_snoc. apply last_snoc. Qed.

Lemma keepLastHour_snoc2 prev x y :
  keepLastHour (prev ++ [x; y]) = skipn (length prev + 2 - 3600) prev ++ [x; y].
Proof.
  rewrite keepLastHour_drop, length_app. cbn [length].
  rewrite skipn_app.
  replace (length prev + 2 - 3600 - length prev)%nat with 0%nat by lia.
  reflexivity.
Qed.
End Slices.

(** ** Properties of the current revision *)

Module CurrentFacts.
Import Js Current RecorderAux.

Lemma asSeries_jsonOfPoint (data : series) :
  mapM asPoint (map jsonOfPoint data) = Some data.
Proof.
  induction data as [| [t v] data IH]; [reflexivity |].
  cbn [map]. change (mapM asPoint (jsonOfPoint (mkPoint t v) :: map jsonOfPoint data))
    with (y ← asPoint (jsonOfPoint (mkPoint t v)); k ← mapM asPoint (map jsonOfPoint data); mret (y :: k)).
  rewrite IH. reflexivity.
Qed.

Lemma asNullable_jsonOfNullable x : asNullable (jsonOfNullable x) = Some x.
Proof. destruct x; reflexivity. Qed.

Lemma asStage_jsonOfStage g : asStage (jsonOfStage g) = Some g.
Proof. destruct g; reflexivity. Qed.

Lemma restore_stringify p s :
  restore (stringify (sessionState p s)) = Some (stopped s).
Proof.
  unfold restore, stringify, sessionState.
  cbn [getField assoc String.eqb Ascii.eqb Bool.eqb
       SessionState.temperatureData SessionState.currentTemp
       SessionState.seconds SessionState.firstCrackTime
       SessionState.roastStage SessionState.beanName
       SessionState.chargeTemp SessionState.unit SessionState.isRunning
       SessionState.startTime].
  cbn [mbind option_bind asSeries asNumber].
  rewrite asSeries_jsonOfPoint. cbn [mbind option_bind].
  rewrite asNullable_jsonOfNullable. cbn [mbind option_bind].
  rewrite asStage_jsonOfStage. reflexivity.
Qed.

Lemma logPoint_length elapsed temp prev :
  (length prev <= 3600)%nat -> (length (logPoint elapsed temp prev) <= 3600)%nat.
Proof.
  intros H. unfold logPoint.
  destruct (gtb elapsed (lastTime prev)); [apply keepLastHour_length | exact H].
Qed.

Lemma tick_length now s :
  (length (temperatureData s) <= 3600)%nat ->
  (length (temperatureData (tick now s)) <= 3600)%nat.
Proof.
  intros H. unfold tick.
  destruct (isRunning s); [| exact H].
  destruct (startTime s); [| exact H].
  cbn [temperatureData]. apply logPoint_length, H.
Qed.

Lemma tick_stage now s : roastStage (tick now s) = roastStage s.
Proof.
  unfold tick. destruct (isRunning s), (startTime s); reflexivity.
Qed.

Ltac handler_cases s :=
  unfold sessionButtonClick, handleBackWithConfirmation, handleStart,
    handleFirstCrack, handleIncreaseTemp, handleDecreaseTemp, setCurrentTemp;
  destruct (isRunning s); destruct (roastStage s) eqn:?;
  cbn [negb andb fst snd st ls temperatureData roastStage].

(** What the handlers other than the timer do to the series and stage. *)
Lemma step_inv_state p key e w :
  (length (temperatureData (st w)) <= 3600)%nat ->
  roastStage (st w) <> ready ->
  (length (temperatureData (st (step p key e w))) <= 3600)%nat /\
  roastStage (st (step p key e w)) <> ready.
Proof.
  intros Hlen Hst. destruct w as [s l]. cbn [st ls] in *.
  destruct e; cbn [step st ls].
  - split; [apply tick_length, Hlen | rewrite tick_stage; exact Hst].
  - handler_cases s; split; congruence || assumption.
  - handler_cases s; split; congruence || assumption.
  - handler_cases s; split; congruence || assumption.
  - handler_cases s; split; congruence || assumption.
  - handler_cases s; split; congruence || assumption.
  - handler_cases s; split; congruence || assumption.
Qed.

Lemma step_inv_saved p key e w : savedOrAbsent p key (step p key e w).
Proof.
  destruct w as [s l]. unfold savedOrAbsent.
  destruct e; cbn [step st ls];
    try (right; unfold saveEffect; apply lookup_insert_eq).
  - left. apply lookup_delete_eq.
  - unfold sessionButtonClick. destruct (roastStage s); cbn [st ls];
      try (right; unfold saveEffect; apply lookup_insert_eq).
    left. apply lookup_delete_eq.
Qed.

Lemma step_invariant p key e w :
  invariant p key w -> invariant p key (step p key e w).
Proof.
  intros [Hlen Hst _].
  destruct (step_inv_state p key e w Hlen Hst) as [H1 H2].
  split; [exact H1 | exact H2 | apply step_inv_saved].
Qed.

Lemma mount_fresh p key now ls0 :
  ls0 !! key = None ->
  mount p key now ls0 =
    Some (mkWorld (mkState 0 true (Some (inject_Z now)) None started
                           [ mkPoint 0 (chargeTemp p) ] (chargeTemp p))
                  (saveEffect p key
                     (mkState 0 true (Some (inject_Z now)) None started
                              [ mkPoint 0 (chargeTemp p) ] (chargeTemp p)) ls0)).
Proof.
  intros Hnone. unfold mount, mountEffect. rewrite Hnone. reflexivity.
Qed.

Lemma mount_saved p key now s ls0 :
  ls0 !! key = Some (stringify (sessionState p s)) ->
  mount p key now ls0 =
    Some (mkWorld (stopped s) (saveEffect p key (stopped s) ls0)).
Proof.
  intros Hsome. unfold mount, mountEffect. rewrite Hsome.
  rewrite restore_stringify. reflexivity.
Qed.

Lemma mount_invariant p key now w w' :
  invariant p key w -> mount p key now (ls w) = Some w' -> invariant p key w'.
Proof.
  intros [Hlen Hst [Hnone | Hsome]] Hm.
  - rewrite (mount_fresh p key now _ Hnone) in Hm. injection Hm as <-.
    split; cbn [st ls temperatureData roastStage length];
      [lia | discriminate |].
    right. apply lookup_insert_eq.
  - rewrite (mount_saved p key now _ _ Hsome) in Hm. injection Hm as <-.
    split; cbn [st ls stopped temperatureData roastStage];
      [exact Hlen | exact Hst |].
    right. apply lookup_insert_eq.
Qed.

Lemma reachable_invariant p key w : reachable p key w -> invariant p key w.
Proof.
  induction 1 as [ls0 now w Hnone Hm | w e _ IH | w now w' _ IH Hm].
  - rewrite (mount_fresh p key now _ Hnone) in Hm. injection Hm as <-.
    split; cbn [st ls temperatureData roastStage length];
      [lia | discriminate |].
    right. apply lookup_insert_eq.
  - apply step_invariant, IH.
  - exact (mount_invariant p key now w w' IH Hm).
Qed.

Lemma gtb_irrefl (x : number) : gtb x x = false.
Proof.
  unfold gtb. replace (Qle_bool x x) with true; [reflexivity |].
  symmetry. apply Qle_bool_iff. apply Qle_refl.
Qed.

Lemma lastTime_snoc prev pt : lastTime (prev ++ [pt]) = time pt.
Proof. unfold lastTime. rewrite last_snoc. reflexivity. Qed.

Lemma logPoint_duplicate prev elapsed x y :
  logPoint elapsed y (prev ++ [ mkPoint elapsed x ]) = prev ++ [ mkPoint elapsed x ].
Proof.
  unfold logPoint. rewrite lastTime_snoc. cbn [time].
  rewrite gtb_irrefl. reflexivity.
Qed.


End CurrentFacts.

(** ** Properties of the older revision *)

Module LegacyFacts.
Import Js Legacy.


End LegacyFacts.

(** ** Arrays as heap objects: what the summary receives *)

Module RefsFacts.
Import Js Current RecorderAux Refs CurrentFacts.

Lemma alloc_lookup a h : (alloc a h).2 !! (alloc a h).1 = Some a.
Proof. unfold alloc. cbn [fst snd]. apply lookup_insert_eq. Qed.

Lemma alloc_preserved a h : preserved h (alloc a h).2.
Proof.
  intros l b Hl. unfold alloc. cbn [snd].
  rewrite lookup_insert_ne; [exact Hl |].
  intros <-. pose proof (is_fresh (dom h)) as Hf.
  apply Hf. apply elem_of_dom. eauto.
Qed.

Lemma preserved_refl h : preserved h h.
Proof. intros l a H. exact H. Qed.

Lemma preserved_trans h1 h2 h3 :
  preserved h1 h2 -> preserved h2 h3 -> preserved h1 h3.
Proof. intros H12 H23 l a H. apply H23, H12, H. Qed.

Lemma alloc_inv a h l h' :
  alloc a h = (l, h') -> preserved h h' /\ h' !! l = Some a.
Proof.
  intros E. split.
  - replace h' with (alloc a h).2 by (rewrite E; reflexivity).
    apply alloc_preserved.
  - replace h' with (alloc a h).2 by (rewrite E; reflexivity).
    replace l with (alloc a h).1 by (rewrite E; reflexivity).
    apply alloc_lookup.
Qed.

Lemma tick_preserved now h s : preserved h (tick now h s).1.
Proof.
  unfold tick.
  destruct (isRunning s); [| apply preserved_refl].
  destruct (startTime s) as [t0 |]; [| apply preserved_refl].
  destruct (h !! temperatureData s) as [prev |]; [| apply preserved_refl].
  destruct (gtb _ _); [| apply preserved_refl].
  destruct (alloc (prev ++ _) h) as [newData h1] eqn:E1.
  destruct (alloc_inv _ _ _ _ E1) as [P1 _].
  destruct (_ <? _)%nat; [| exact P1].
  destruct (alloc (sliceLast 3600 _) h1) as [sliced h2] eqn:E2.
  destruct (alloc_inv _ _ _ _ E2) as [P2 _].
  cbn [fst]. eapply preserved_trans; [exact P1 | exact P2].
Qed.

Lemma step_preserved p key e w : preserved (hp w) (hp (step p key e w)).
Proof.
  destruct e; cbn [step]; try apply preserved_refl.
  - pose proof (tick_preserved now (hp w) (st w)) as H.
    destruct (tick now (hp w) (st w)) as [h s]. exact H.
  - destruct (sessionButtonClick now key (ls w) (st w)) as [[s' ls'] [d |]];
      apply preserved_refl.
Qed.

Lemma run_preserved p key es w : preserved (hp w) (hp (run p key es w)).
Proof.
  revert w. induction es as [| e es IH]; intros w; [apply preserved_refl |].
  cbn [run fold_left]. eapply preserved_trans; [apply step_preserved | apply IH].
Qed.

(** The heap model stands for the by-value model, event by event. *)
Lemma tick_view now h s prev :
  h !! temperatureData s = Some prev ->
  (tick now h s).1 !! temperatureData (tick now h s).2 =
    Some (temperatureData (Current.tick now (withSeries prev s))) /\
  withSeries (temperatureData (Current.tick now (withSeries prev s)))
             (tick now h s).2 =
    Current.tick now (withSeries prev s).
Proof.
  intros Hprev. unfold tick, Current.tick, logPoint. rewrite Hprev.
  cbn [withSeries isRunning startTime temperatureData currentTemp].
  destruct (isRunning s); [| split; [exact Hprev | reflexivity]].
  destruct (startTime s) as [t0 |]; [| split; [exact Hprev | reflexivity]].
  destruct (gtb _ _); [| split; [exact Hprev | reflexivity]].
  destruct (alloc (prev ++ _) h) as [newData h1] eqn:E1.
  destruct (alloc_inv _ _ _ _ E1) as [_ L1].
  unfold keepLastHour.
  destruct (_ <? _)%nat; [| split; [exact L1 | reflexivity]].
  destruct (alloc (sliceLast 3600 _) h1) as [sliced h2] eqn:E2.
  destruct (alloc_inv _ _ _ _ E2) as [_ L2].
  split; [exact L2 | reflexivity].
Qed.

Lemma view_saved p key h (s : State loc) ls0 a :
  h !! temperatureData s = Some a ->
  view (mkWorld h s (saveEffect p key h s ls0)) =
    Some (Current.mkWorld (withSeries a s)
            (Current.saveEffect p key (withSeries a s) ls0)).
Proof.
  intros H. unfold view, saveEffect. cbn [hp st ls]. rewrite H. reflexivity.
Qed.

Lemma withSeries_handleStart {B} now (s : State loc) (a : B) :
  withSeries a (handleStart now s) = handleStart now (withSeries a s).
Proof.
  unfold handleStart. cbn [withSeries isRunning roastStage].
  destruct (negb (isRunning s) && _); reflexivity.
Qed.

Lemma withSeries_handleFirstCrack {B} (s : State loc) (a : B) :
  withSeries a (handleFirstCrack s) = handleFirstCrack (withSeries a s).
Proof.
  unfold handleFirstCrack. cbn [withSeries roastStage].
  destruct (roastStage s); reflexivity.
Qed.

Lemma handleStart_series {B} now (s : State B) :
  temperatureData (handleStart now s) = temperatureData s.
Proof. unfold handleStart. destruct (_ && _); reflexivity. Qed.

Lemma handleFirstCrack_series {B} (s : State B) :
  temperatureData (handleFirstCrack s) = temperatureData s.
Proof. unfold handleFirstCrack. destruct (roastStage s); reflexivity. Qed.

Lemma step_view p key e w v :
  view w = Some v -> view (step p key e w) = Some (Current.step p key e v).
Proof.
  destruct w as [h s l]. intros Hv. unfold view in Hv. cbn [hp st ls] in Hv.
  destruct (h !! temperatureData s) as [a |] eqn:Ha; [| discriminate].
  cbn [mbind option_bind] in Hv. injection Hv as <-.
  destruct e; cbn [step Current.step hp st ls Current.st Current.ls].
  - destruct (tick_view now h s a Ha) as [H1 H2].
    destruct (tick now h s) as [h' s']. cbn [fst snd] in *.
    cbv beta iota zeta.
    rewrite (view_saved p key h' s' l _ H1). rewrite H2. reflexivity.
  - rewrite (view_saved p key h _ l a), withSeries_handleStart;
      [reflexivity | rewrite handleStart_series; exact Ha].
  - rewrite (view_saved p key h _ l a), withSeries_handleFirstCrack;
      [reflexivity | rewrite handleFirstCrack_series; exact Ha].
  - rewrite (view_saved p key h _ l a); [reflexivity | exact Ha].
  - rewrite (view_saved p key h _ l a); [reflexivity | exact Ha].
  - unfold view.
    cbn [handleBackWithConfirmation hp st ls temperatureData withSeries].
    rewrite Ha. reflexivity.
  - unfold sessionButtonClick. cbn [withSeries roastStage].
    destruct (roastStage s) eqn:E.
    + rewrite (view_saved p key h _ l a), withSeries_handleStart;
        [reflexivity | rewrite handleStart_series; exact Ha].
    + rewrite (view_saved p key h _ l a), withSeries_handleFirstCrack;
        [reflexivity | rewrite handleFirstCrack_series; exact Ha].
    + unfold view.
      cbn [handleBackWithConfirmation hp st ls temperatureData withSeries].
      rewrite Ha. reflexivity.
    + rewrite (view_saved p key h _ l a); [reflexivity | exact Ha].
Qed.

(** Mounting agrees with the by-value model as well. *)
Lemma mount_view p key now h ls0 w :
  mount p key now h ls0 = Some w -> view w = Current.mount p key now ls0.
Proof.
  unfold mount, Current.mount, mountEffect.
  destruct (alloc [mkPoint 0 (chargeTemp p)] h) as [init h1] eqn:E1.
  destruct (alloc_inv _ _ _ _ E1) as [_ L1].
  destruct (ls0 !! key) as [savedSession |].
  - destruct (restore savedSession) as [r |]; [| discriminate].
    cbn [mbind option_bind].
    destruct (alloc (temperatureData r) h1) as [parsed h2] eqn:E2.
    destruct (alloc_inv _ _ _ _ E2) as [_ L2].
    intros [= <-].
    rewrite (view_saved p key h2 (withSeries parsed r) ls0 (temperatureData r) L2).
    destruct r; reflexivity.
  - intros [= <-].
    rewrite (view_saved p key h1
               (mkState 0 true (Some (inject_Z now)) None started init (chargeTemp p))
               ls0 _ L1).
    reflexivity.
Qed.

(** C9, as the code has it.  Ending the session hands [App] the
    recorder's own series array: the summary holds the same reference, no
    array is allocated, so no copy is made.  The contents are those of
    the recorder's series at the call, and they stay so under any later
    events of the recorder, which allocates new arrays and never writes
    into an existing one. *)
Theorem end_hands_over_the_series (key : string) (w : World)
    (a : App.State loc) (sess : Props) :
  App.session a = Some sess ->
  exists sm,
    App.summary (endSession key w a).2 = Some sm /\
    App.SummaryData.temperatureData sm = temperatureData (st w) /\
    hp (endSession key w a).1 = hp w /\
    (forall p es data,
        hp w !! temperatureData (st w) = Some data ->
        hp (run p key es (endSession key w a).1)
          !! App.SummaryData.temperatureData sm = Some data).
Proof.
  intros Hs. unfold endSession, handleBackWithConfirmation, App.handleEndSession.
  cbn [fst snd]. rewrite Hs. eexists. split; [reflexivity |].
  cbn [App.SummaryData.temperatureData OnBack.temperatureData].
  split; [reflexivity |]. split; [reflexivity |].
  intros p es data Hd. apply (run_preserved p key es). exact Hd.
Qed.

Lemma crackedWorld_stage :
  exists w, crackedWorld = Some w /\ roastStage (st w) = firstCrack.
Proof.
  destruct crackedWorld as [w |] eqn:E; [| vm_compute in E; discriminate].
  exists w. split; [reflexivity |].
  vm_compute in E. injection E as <-. reflexivity.
Qed.

Lemma end_hands_over_the_series_witness :
  App.session roasting = Some kenya /\
  exists w sm,
    crackedWorld = Some w /\
    App.summary (endSession "k" w roasting).2 = Some sm /\
    App.SummaryData.temperatureData sm = temperatureData (st w).
Proof.
  assert (H : App.session roasting = Some kenya) by reflexivity.
  split; [exact H |].
  destruct crackedWorld_stage as (w & E & _).
  destruct (end_hands_over_the_series "k" w roasting kenya H)
    as (sm & H1 & H2 & _).
  exists w, sm. split; [exact E | split; [exact H1 | exact H2]].
Defined.

(** C9 fails as stated: for a session in stage [firstCrack] the summary's
    series is the recorder's array itself, and ending allocates nothing. *)
Lemma summary_series_counterexample :
  exists w sm,
    crackedWorld = Some w /\
    roastStage (st w) = firstCrack /\
    App.summary (endSession "k" w roasting).2 = Some sm /\
    App.SummaryData.temperatureData sm = temperatureData (st w) /\
    hp (endSession "k" w roasting).1 = hp w.
Proof.
  destruct crackedWorld_stage as (w & E & Hs).
  eexists w, _. split; [exact E |]. split; [exact Hs |].
  repeat split; reflexivity.
Qed.
End RefsFacts.

(** ** The recorder's claims *)

Module RecorderClaims.
Import Js RecorderAux CurrentFacts.



(** C4.  Mounting over the blob saved for a state [s] restores the series,
    stage, elapsed seconds, current temperature and first-crack time of
    [s], with the timer stopped ([isRunning] false, no start time),
    whether or not [s] was running. *)
Theorem restore_after_serialize (p : Props) (key : string) (now : Z)
    (s : Current.State Current.series) (ls0 : storage) :
  exists w,
    Current.mount p key now (Current.saveEffect p key s ls0) = Some w /\
    Current.temperatureData (Current.st w) = Current.temperatureData s /\
    Current.roastStage (Current.st w) = Current.roastStage s /\
    Current.seconds (Current.st w) = Current.seconds s /\
    Current.currentTemp (Current.st w) = Current.currentTemp s /\
    Current.firstCrackTime (Current.st w) = Current.firstCrackTime s /\
    Current.isRunning (Current.st w) = false /\
    Current.startTime (Current.st w) = None.
Proof.
  eexists. split.
  - apply mount_saved. unfold Current.saveEffect. apply lookup_insert_eq.
  - cbn. repeat split; reflexivity.
Qed.





Lemma Math_max_floor (x : number) : 0 <= Math_max 0 x.
Proof.
  unfold Math_max. destruct (Qle_bool 0 x) eqn:E.
  - apply Qle_bool_iff, E.
  - apply Qle_refl.
Qed.

Lemma tempStep_pos (u : TempUnit) : 0 < tempStep u.
Proof. destruct u; reflexivity. Qed.

Lemma current_step_temp p key e w :
  0 <= Current.currentTemp (Current.st w) ->
  0 <= Current.currentTemp (Current.st (Current.step p key e w)).
Proof.
  intros H. destruct w as [s l]. cbn [Current.st] in H.
  destruct e; cbn [Current.step Current.st Current.ls].
  - unfold Current.tick.
    destruct (Current.isRunning s), (Current.startTime s); exact H.
  - unfold Current.handleStart. destruct (_ && _); exact H.
  - unfold Current.handleFirstCrack. destruct (Current.roastStage s); exact H.
  - cbn [Current.handleIncreaseTemp Current.setCurrentTemp Current.currentTemp].
    pose proof (tempStep_pos (unit_ p)). lra.
  - apply Math_max_floor.
  - exact H.
  - unfold Current.sessionButtonClick, Current.handleStart, Current.handleFirstCrack.
    destruct (Current.roastStage s), (Current.isRunning s); exact H.
Qed.

Lemma current_run_temp p key es w :
  0 <= Current.currentTemp (Current.st w) ->
  0 <= Current.currentTemp (Current.st (Current.run p key es w)).
Proof.
  revert w. induction es as [| e es IH]; intros w H; [exact H |].
  cbn [Current.run fold_left]. apply IH, current_step_temp, H.
Qed.

Lemma legacy_step_temp u e s :
  chargeOk e -> 0 <= Legacy.currentTemp s ->
  0 <= Legacy.currentTemp (Legacy.step u e s).
Proof.
  intros Hc H. destruct e; cbn [Legacy.step].
  - unfold Legacy.tick. destruct (Legacy.isRunning s); exact H.
  - exact H.
  - exact H.
  - cbn. pose proof (tempStep_pos u). lra.
  - apply Math_max_floor.
  - exact Hc.
Qed.

Lemma legacy_run_temp u es s :
  Forall chargeOk es -> 0 <= Legacy.currentTemp s ->
  0 <= Legacy.currentTemp (Legacy.run u es s).
Proof.
  revert s. induction es as [| e es IH]; intros s Hes H; [exact H |].
  inversion Hes as [| ? ? He Hes']; subst.
  cbn [Legacy.run fold_left]. apply IH; [exact Hes' |].
  apply legacy_step_temp; assumption.
Qed.

Lemma current_reachable_temp p key w :
  0 <= chargeTemp p -> Current.reachable p key w ->
  0 <= Current.currentTemp (Current.st w).
Proof.
  intros Hc. induction 1 as [ls0 now w Hnone Hm | w e _ IH | w now w' Hw IH Hm].
  - rewrite (mount_fresh p key now _ Hnone) in Hm. injection Hm as <-. exact Hc.
  - apply current_step_temp, IH.
  - destruct (inv_saved p key w (reachable_invariant p key w Hw)) as [Hnone | Hsome].
    + rewrite (mount_fresh p key now _ Hnone) in Hm. injection Hm as <-. exact Hc.
    + rewrite (mount_saved p key now _ _ Hsome) in Hm. injection Hm as <-. exact IH.
Qed.

Lemma current_decrease_half {A} (n : nat) (s : Current.State A) :
  Current.currentTemp s = 1 # 2 ->
  Current.currentTemp (Nat.iter (S n) (Current.handleDecreaseTemp UnitC) s) = 0.
Proof.
  intros H. induction n as [| n IH].
  - cbn. rewrite H. reflexivity.
  - change (Nat.iter (S (S n)) (Current.handleDecreaseTemp UnitC) s)
      with (Current.handleDecreaseTemp UnitC
              (Nat.iter (S n) (Current.handleDecreaseTemp UnitC) s)).
    cbn [Current.handleDecreaseTemp Current.setCurrentTemp Current.currentTemp].
    rewrite IH. reflexivity.
Qed.

Lemma legacy_decrease_half (n : nat) (s : Legacy.State) :
  Legacy.currentTemp s = 1 # 2 ->
  Legacy.currentTemp (Nat.iter (S n) (Legacy.handleDecreaseTemp UnitC) s) = 0.
Proof.
  intros H. induction n as [| n IH].
  - cbn. rewrite H. reflexivity.
  - change (Nat.iter (S (S n)) (Legacy.handleDecreaseTemp UnitC) s)
      with (Legacy.handleDecreaseTemp UnitC
              (Nat.iter (S n) (Legacy.handleDecreaseTemp UnitC) s)).
    cbn [Legacy.handleDecreaseTemp Legacy.setTempAndLog Legacy.currentTemp].
    rewrite IH. reflexivity.
Qed.

(** C6.  The current temperature stays non-negative: under every
    sequence of events of the current revision, under every sequence of
    events of the older one (resets to a non-negative charge
    temperature), and hence in every reachable world of a session whose
    charge temperature is non-negative.  Decreasing from 0.5 in Celsius,
    once or more, gives exactly 0 in both revisions. *)
Theorem temperature_never_negative :
  (forall p key es w,
      0 <= Current.currentTemp (Current.st w) ->
      0 <= Current.currentTemp (Current.st (Current.run p key es w))) /\
  (forall u es s,
      Forall chargeOk es -> 0 <= Legacy.currentTemp s ->
      0 <= Legacy.currentTemp (Legacy.run u es s)) /\
  (forall p key w,
      0 <= chargeTemp p -> Current.reachable p key w ->
      0 <= Current.currentTemp (Current.st w)) /\
  (forall (n : nat) (s : Current.State Current.series),
      Current.currentTemp s = 1 # 2 ->
      Current.currentTemp
        (Nat.iter (S n) (Current.handleDecreaseTemp UnitC) s) = 0) /\
  (forall (n : nat) (s : Legacy.State),
      Legacy.currentTemp s = 1 # 2 ->
      Legacy.currentTemp
        (Nat.iter (S n) (Legacy.handleDecreaseTemp UnitC) s) = 0).
Proof.
  split; [| split; [| split; [| split]]].
  - apply current_run_temp.
  - apply legacy_run_temp.
  - apply current_reachable_temp.
  - intros n s. apply current_decrease_half.
  - apply legacy_decrease_half.
Qed.


(** C2, as the code has it.  In the current revision the timer callback
    leaves the series unchanged when the elapsed second is the one of the
    last point, and the manual temperature handlers never touch the
    series.  In the older revision a manual change made while the timer
    runs appends a point at the current second, so a series ending in
    [(t, x)] then ends in [(t, x), (t, y)]; made while the timer is
    stopped it appends nothing. *)
Theorem duplicate_elapsed_appends :
  (forall prev elapsed x y,
      Current.logPoint elapsed y (prev ++ [ mkPoint elapsed x ]) =
        prev ++ [ mkPoint elapsed x ]) /\
  (forall (now : Z) s t0 prev x,
      Current.isRunning s = true ->
      Current.startTime s = Some t0 ->
      Current.temperatureData s =
        prev ++ [ mkPoint (Math_floor ((inject_Z now - t0) / 1000)) x ] ->
      Current.temperatureData (Current.tick now s) = Current.temperatureData s) /\
  (forall (u : TempUnit) (s : Current.State Current.series),
      Current.temperatureData (Current.handleIncreaseTemp u s) =
        Current.temperatureData s /\
      Current.temperatureData (Current.handleDecreaseTemp u s) =
        Current.temperatureData s) /\
  (forall newTemp s prev x,
      Legacy.isRunning s = true ->
      Legacy.temperatureData s = prev ++ [ mkPoint (Legacy.seconds s) x ] ->
      Legacy.temperatureData (Legacy.setTempAndLog newTemp s) =
        skipn (length prev + 2 - 3600) prev
          ++ [ mkPoint (Legacy.seconds s) x; mkPoint (Legacy.seconds s) newTemp ]) /\
  (forall newTemp s,
      Legacy.isRunning s = false ->
      Legacy.temperatureData (Legacy.setTempAndLog newTemp s) =
        Legacy.temperatureData s).
Proof.
  split; [| split; [| split; [| split]]].
  - apply logPoint_duplicate.
  - intros now s t0 prev x Hrun Hstart Hdata.
    unfold Current.tick. rewrite Hrun, Hstart.
    cbn [Current.temperatureData]. rewrite Hdata.
    apply logPoint_duplicate.
  - intros u s. split; reflexivity.
  - intros newTemp s prev x Hrun Hdata.
    unfold Legacy.setTempAndLog. rewrite Hrun.
    cbn [Legacy.temperatureData]. rewrite Hdata.
    rewrite <- app_assoc. cbn [app]. apply keepLastHour_snoc2.
  - intros newTemp s Hrun. unfold Legacy.setTempAndLog. rewrite Hrun.
    reflexivity.
Qed.

Lemma duplicate_elapsed_appends_witness :
  Current.isRunning paused = true /\
  Current.startTime paused = Some 0 /\
  Current.temperatureData paused =
    [ mkPoint 0 20 ] ++ [ mkPoint (Math_floor ((inject_Z 5400 - 0) / 1000)) 20 ] /\
  Current.temperatureData (Current.tick 5400 paused) =
    Current.temperatureData paused.
Proof.
  assert (H1 : Current.isRunning paused = true) by reflexivity.
  assert (H2 : Current.startTime paused = Some 0) by reflexivity.
  assert (H3 : Current.temperatureData paused =
    [ mkPoint 0 20 ] ++ [ mkPoint (Math_floor ((inject_Z 5400 - 0) / 1000)) 20 ])
    by reflexivity.
  split; [exact H1 | split; [exact H2 | split; [exact H3 |]]].
  destruct duplicate_elapsed_appends as (_ & Htick & _).
  exact (Htick 5400%Z paused 0 [ mkPoint 0 20 ] 20 H1 H2 H3).
Defined.

(** C2 fails as stated in the current revision: a manual change at
    second 5 leaves the series [(0, 20), (5, 20)] as it is. *)
Lemma manual_change_counterexample :
  Current.temperatureData (Current.handleIncreaseTemp UnitC paused) =
    [ mkPoint 0 20; mkPoint 5 20 ] /\
  Current.temperatureData (Current.handleIncreaseTemp UnitC paused) <>
    [ mkPoint 0 20; mkPoint 5 20; mkPoint 5 21 ].
Proof. split; [reflexivity | discriminate]. Qed.



Lemma temperature_never_negative_witness :
  0 <= Current.currentTemp (Current.st w0) /\
  0 <= Current.currentTemp
         (Current.st (Current.run kenya "k"
            [Current.Decrease; Current.Increase; Current.Decrease] w0)).
Proof.
  assert (H : 0 <= Current.currentTemp (Current.st w0))
    by (vm_compute; discriminate).
  split; [exact H |].
  exact (proj1 temperature_never_negative kenya "k"
           [Current.Decrease; Current.Increase; Current.Decrease] w0 H).
Defined.

(** A roast of the current revision: first crack at 60 s, ended at 300 s;
    and a manual change logged at once by the older revision. *)
Example roast_scenario :
  let w := Current.run kenya "k"
             [Current.Tick 60000; Current.FirstCrack; Current.Tick 300000] w0 in
  Current.firstCrackTime (Current.st w) = Some 60 /\
  Current.seconds (Current.st w) = 300 /\
  Current.temperatureData (Current.st w) =
    [ mkPoint 0 20; mkPoint 60 20; mkPoint 300 20 ] /\
  Current.OnBack.totalTime (Current.handleBackWithConfirmation "k" (Current.ls w) (Current.st w)).2 = 300.
Proof. vm_compute. repeat split; reflexivity. Qed.

Example legacy_manual_log :
  Legacy.temperatureData
    (Legacy.run UnitC [Legacy.Start; Legacy.Tick; Legacy.Increase; Legacy.Tick]
       (Legacy.initialState 20)) =
  [ mkPoint 0 20; mkPoint 1 20; mkPoint 1 21; mkPoint 2 21 ].
Proof. vm_compute. reflexivity. Qed.

End RecorderClaims.

(** ** Lists of points in time order *)

Module ListFacts.
Import Sorted.

Section Generic.
Context (R : TemperatureDataPoint -> TemperatureDataPoint -> Prop).

Lemma sorted_snoc (l : list TemperatureDataPoint) (y : TemperatureDataPoint) :
  StronglySorted R l -> Forall (fun x => R x y) l ->
  StronglySorted R (l ++ [y]).
Proof.
  induction 1 as [| a l Hs IH Ha]; intros Hy; cbn [app].
  - constructor; constructor.
  - inversion Hy as [| ? ? Hay Hly]; subst.
    constructor; [apply IH, Hly |].
    apply Forall_app. split; [exact Ha | constructor; [exact Hay | constructor]].
Qed.

Lemma sorted_skipn (k : nat) (l : list TemperatureDataPoint) :
  StronglySorted R l -> StronglySorted R (skipn k l).
Proof.
  revert l. induction k as [| k IH]; intros l H; [exact H |].
  destruct l as [| a l]; [exact H |].
  cbn [skipn]. apply IH. inversion H; assumption.
Qed.
End Generic.

Lemma Forall_skipn' {A} (P : A -> Prop) (k : nat) (l : list A) :
  Forall P l -> Forall P (skipn k l).
Proof.
  revert l. induction k as [| k IH]; intros l H; [exact H |].
  destruct l as [| a l]; [exact H |].
  cbn [skipn]. apply IH. inversion H; assumption.
Qed.

End ListFacts.

(** ** More on the derived metrics *)

Module DtrExtras.
Import Js Dtr DtrAux DtrFacts MoreAux.

Lemma dtr_form (fc total : number) :
  0 < total -> calculateDTR (Some fc) total == 100 - 100 * (fc / total).
Proof.
  intros H. unfold calculateDTR. rewrite (positive_not_zero total H). cbv zeta.
  field. lra.
Qed.

Lemma div_antitone (fc t1 t2 : Q) :
  0 <= fc -> 0 < t1 -> t1 <= t2 -> fc / t2 <= fc / t1.
Proof.
  intros Hfc H1 H12. assert (H2 : 0 < t2) by lra.
  assert (E1 : fc == (fc / t1) * t1) by (field; lra).
  assert (E2 : fc == (fc / t2) * t2) by (field; lra).
  assert (P2 : 0 <= fc / t2) by (apply Qle_shift_div_l; [assumption | lra]).
  set (q1 := fc / t1) in *. set (q2 := fc / t2) in *. clearbody q1 q2.
  assert (P : 0 <= q2 * (t2 - t1)) by (apply Qmult_le_0_compat; lra).
  assert (D : 0 <= (q1 - q2) * t1) by lra.
  destruct (Qlt_le_dec q1 q2) as [Hlt | Hle]; [| exact Hle].
  exfalso. assert (N : (q1 - q2) * t1 < 0) by nra. lra.
Qed.

(** X1.  With a first crack at a non-negative time, [calculateDTR] never
    decreases as the total time grows: the DTR bar only moves forward
    while the roast goes on. *)
Theorem calculateDTR_monotone (fc t1 t2 : number) :
  0 <= fc -> 0 < t1 -> t1 <= t2 ->
  calculateDTR (Some fc) t1 <= calculateDTR (Some fc) t2.
Proof.
  intros Hfc H1 H12.
  rewrite (dtr_form fc t1 H1), (dtr_form fc t2) by lra.
  pose proof (div_antitone fc t1 t2 Hfc H1 H12). lra.
Qed.

Lemma div_sign (a t : Q) : 0 < t ->
  (a / t < 1 <-> a < t) /\ (a / t == 1 <-> a == t) /\
  (a / t < 0 <-> a < 0) /\ (a / t == 0 <-> a == 0).
Proof.
  intros Ht.
  assert (E : a == (a / t) * t) by (field; lra).
  set (q := a / t) in *. clearbody q.
  repeat split; intros H; nra.
Qed.

Lemma calculateDTR_monotone_witness :
  0 <= 60 /\ 0 < 120 /\ 120 <= 300 /\
  calculateDTR (Some 60) 120 <= calculateDTR (Some 60) 300.
Proof.
  assert (H0 : 0 <= 60) by (vm_compute; discriminate).
  assert (H1 : 0 < 120) by reflexivity.
  assert (H2 : 120 <= 300) by (vm_compute; discriminate).
  split; [exact H0 | split; [exact H1 | split; [exact H2 |]]].
  exact (calculateDTR_monotone 60 120 300 H0 H1 H2).
Defined.

(** X2.  For a positive total time [calculateDTR] is not clamped: it is 0
    exactly when the first crack is at the total time, 100 exactly when
    it is at 0, negative exactly when the total time is before the first
    crack, and above 100 exactly when the first crack is negative. *)
Theorem calculateDTR_range (fc total : number) :
  0 < total ->
  (calculateDTR (Some fc) total == 0 <-> fc == total) /\
  (calculateDTR (Some fc) total == 100 <-> fc == 0) /\
  (calculateDTR (Some fc) total < 0 <-> total < fc) /\
  (100 < calculateDTR (Some fc) total <-> fc < 0).
Proof.
  intros Ht. pose proof (dtr_form fc total Ht) as E.
  destruct (div_sign fc total Ht) as (H1 & H2 & H3 & H4).
  set (d := calculateDTR (Some fc) total) in *. set (q := fc / total) in *.
  clearbody d q.
  assert (L1 : fc < total \/ fc == total \/ total < fc) by
    (destruct (Q_dec fc total) as [[|]|]; auto).
  assert (L2 : fc < 0 \/ fc == 0 \/ 0 < fc) by
    (destruct (Q_dec fc 0) as [[|]|]; auto).
  repeat split; intros H.
  - apply H2. lra.
  - apply H2 in H. lra.
  - apply H4. lra.
  - apply H4 in H. lra.
  - destruct L1 as [L | [L | L]]; [apply H1 in L; lra | apply H2 in L; lra | exact L].
  - destruct (Qlt_le_dec 1 q) as [|Hq]; [lra |].
    exfalso. destruct (Qlt_le_dec q 1) as [Hq1 | Hq1].
    + apply H1 in Hq1. lra.
    + assert (Hq2 : q == 1) by lra. apply H2 in Hq2. lra.
  - destruct L2 as [L | [L | L]]; [exact L | apply H4 in L; lra |].
    exfalso. destruct (Qlt_le_dec q 0) as [Hq | Hq]; [apply H3 in Hq; lra | lra].
  - apply H3 in H. lra.
Qed.

Lemma calculateDTR_range_witness :
  0 < 300 /\ (calculateDTR (Some 400) 300 < 0 <-> 300 < 400).
Proof.
  assert (H : 0 < 300) by reflexivity.
  split; [exact H |].
  exact (proj1 (proj2 (proj2 (calculateDTR_range 400 300 H)))).
Defined.

Lemma mixZ_between (a b : Z) (ratio : number) :
  0 <= ratio -> ratio <= 1 ->
  (Z.min a b <= mixZ a b ratio <= Z.max a b)%Z.
Proof.
  intros H0 H1.
  destruct (Z_le_gt_dec b a) as [Hba | Hab].
  - pose proof (mixZ_bounds a b ratio Hba H0 H1). lia.
  - assert (Hq : inject_Z a <= inject_Z b) by (rewrite <- Zle_Qle; lia).
    assert (lo : (a <= mixZ a b ratio <= b)%Z) by (apply round_bounds; nra).
    lia.
Qed.

Lemma mixZ_start (a b : Z) : mixZ a b 0%Q = a.
Proof.
  assert (H : (a <= mixZ a b 0%Q <= a)%Z) by (apply round_bounds; lra). lia.
Qed.

Lemma mixZ_end (a b : Z) : mixZ a b 1%Q = b.
Proof.
  assert (H : (b <= mixZ a b 1%Q <= b)%Z) by (apply round_bounds; lra). lia.
Qed.


Lemma interpolateColor_fmt (color1 color2 : string) (ratio : number) c1 c2 :
  channels color1 = some3 c1 -> channels color2 = some3 c2 ->
  interpolateColor color1 color2 ratio =
    fmt (mixZ c1.1.1 c2.1.1 ratio, mixZ c1.1.2 c2.1.2 ratio, mixZ c1.2 c2.2 ratio).
Proof.
  destruct c1 as [[r1 g1] b1], c2 as [[r2 g2] b2].
  unfold channels, some3. intros [= Hr1 Hg1 Hb1] [= Hr2 Hg2 Hb2].
  unfold interpolateColor. cbv zeta.
  rewrite Hr1, Hg1, Hb1, Hr2, Hg2, Hb2. reflexivity.
Qed.

(** X3.  For two well-formed colours and a ratio in [0,1],
    [interpolateColor] returns a well-formed colour each of whose channels
    lies between the corresponding channels of the two colours; ratio 0
    gives the channels of the first colour and ratio 1 those of the
    second. *)
Theorem interpolateColor_between (color1 color2 : string) (ratio : number)
    (c1 c2 : Z * Z * Z) :
  channels color1 = some3 c1 -> byte3 c1 ->
  channels color2 = some3 c2 -> byte3 c2 ->
  0 <= ratio -> ratio <= 1 ->
  exists c,
    channels (interpolateColor color1 color2 ratio) = some3 c /\
    between3 c1 c2 c /\
    channels (interpolateColor color1 color2 0) = channels color1 /\
    channels (interpolateColor color1 color2 1) = channels color2.
Proof.
  intros E1 B1 E2 B2 H0 H1.
  destruct c1 as [[r1 g1] b1], c2 as [[r2 g2] b2].
  destruct B1 as (Br1 & Bg1 & Bb1), B2 as (Br2 & Bg2 & Bb2).
  cbn [fst snd] in *. unfold isByte in *.
  pose proof (mixZ_between r1 r2 ratio H0 H1) as Hr.
  pose proof (mixZ_between g1 g2 ratio H0 H1) as Hg.
  pose proof (mixZ_between b1 b2 ratio H0 H1) as Hb.
  exists (mixZ r1 r2 ratio, mixZ g1 g2 ratio, mixZ b1 b2 ratio).
  rewrite !(interpolateColor_fmt color1 color2 _ _ _ E1 E2). cbn [fst snd].
  rewrite !mixZ_start, !mixZ_end.
  split; [| split; [| split]].
  - apply channels_fmt; unfold isByte; lia.
  - unfold between3. cbn [fst snd]. lia.
  - rewrite E1. apply channels_fmt; assumption.
  - rewrite E2. apply channels_fmt; assumption.
Qed.

Lemma interpolateColor_between_witness :
  exists c,
    channels (interpolateColor "#DAA06D" "#7B3F00" (1 # 2)) = some3 c /\
    between3 (218, 160, 109)%Z (123, 63, 0)%Z c.
Proof.
  assert (E1 : channels "#DAA06D" = some3 (218, 160, 109)%Z) by reflexivity.
  assert (E2 : channels "#7B3F00" = some3 (123, 63, 0)%Z) by reflexivity.
  assert (B1 : byte3 (218, 160, 109)%Z) by (unfold byte3, isByte; cbn; lia).
  assert (B2 : byte3 (123, 63, 0)%Z) by (unfold byte3, isByte; cbn; lia).
  assert (H0 : 0 <= 1 # 2) by (vm_compute; discriminate).
  assert (H1 : 1 # 2 <= 1) by (vm_compute; discriminate).
  destruct (interpolateColor_between "#DAA06D" "#7B3F00" (1 # 2) _ _ E1 B1 E2 B2 H0 H1)
    as (c & Hc & Hb & _).
  exists c. split; assumption.
Defined.


End DtrExtras.

(** ** The clock format *)

Module ExportFacts.
Import Js ExportUtils MoreAux.

Example formatTime_330 : formatTime 330 = "05:30".
Proof. reflexivity. Qed.

Example formatTime_edges :
  formatTime 0 = "00:00" /\ formatTime 3599 = "59:59" /\
  formatTime 6000 = "100:00" /\ formatTime (-1) = "-1:-1".
Proof. repeat split; reflexivity. Qed.

Lemma decodeN_decOfN (n : N) : decodeN (decOfN n) = Some n.
Proof.
  unfold decodeN, decOfN. rewrite DecimalString.NilEmpty.usu.
  f_equal. apply DecimalN.Unsigned.of_to.
Qed.

Lemma decodeN_zero (s : string) (n : N) :
  decodeN s = Some n -> decodeN (String "0" s) = Some n.
Proof.
  unfold decodeN. cbn [DecimalString.NilEmpty.uint_of_string].
  destruct (DecimalString.NilEmpty.uint_of_string s) as [d |]; [| discriminate].
  intros [= <-]. reflexivity.
Qed.

Lemma decodeN_zeros (k : nat) (s : string) (n : N) :
  decodeN s = Some n -> decodeN (repeatChar "0" k ++ s) = Some n.
Proof.
  intros H. induction k as [| k IH]; [exact H |].
  change (decodeN (String "0" (repeatChar "0" k ++ s)) = Some n).
  apply decodeN_zero, IH.
Qed.

Lemma decodeN_padStart (n : N) :
  decodeN (padStart 2 "0" (decOfN n)) = Some n.
Proof. unfold padStart. apply decodeN_zeros, decodeN_decOfN. Qed.

Lemma padStart_inj (m1 m2 : N) :
  padStart 2 "0" (decOfN m1) = padStart 2 "0" (decOfN m2) -> m1 = m2.
Proof.
  intros H. apply (f_equal decodeN) in H.
  rewrite !decodeN_padStart in H. congruence.
Qed.

Lemma twoChars_100 : forallb twoChars (seq 0 100) = true.
Proof. vm_compute. reflexivity. Qed.

Lemma padStart_length (n : N) :
  (n < 100)%N -> String.length (padStart 2 "0" (decOfN n)) = 2%nat.
Proof.
  intros H. pose proof twoChars_100 as T. rewrite forallb_forall in T.
  specialize (T (N.to_nat n)).
  assert (Hin : In (N.to_nat n) (seq 0 100)) by (apply in_seq; lia).
  specialize (T Hin). unfold twoChars in T. rewrite N2Nat.id in T.
  apply Nat.eqb_eq in T. exact T.
Qed.

Lemma length_append (a b : string) :
  String.length (a ++ b)%string = (String.length a + String.length b)%nat.
Proof.
  induction a as [| c a IH]; [reflexivity |].
  change (String.length (String c (a ++ b)) =
          S (String.length a + String.length b)).
  cbn [String.length]. rewrite IH. reflexivity.
Qed.

Lemma append_inv (a1 a2 x1 x2 : string) :
  String.length x1 = String.length x2 ->
  (a1 ++ x1 = a2 ++ x2)%string -> a1 = a2 /\ x1 = x2.
Proof.
  intros Hx. revert a2. induction a1 as [| c a1 IH]; intros [| c2 a2] H.
  - split; [reflexivity | exact H].
  - exfalso. apply (f_equal String.length) in H.
    change (String.length x1 = String.length (String c2 (a2 ++ x2))) in H.
    cbn [String.length] in H. rewrite length_append in H. lia.
  - exfalso. apply (f_equal String.length) in H.
    change (String.length (String c (a1 ++ x1)) = String.length x2) in H.
    cbn [String.length] in H. rewrite length_append in H. lia.
  - change (String c (a1 ++ x1) = String c2 (a2 ++ x2)) in H.
    injection H as -> H. destruct (IH a2 H) as [-> ->]. split; reflexivity.
Qed.

Lemma formatTime_nonneg (n : Z) : (0 <= n)%Z ->
  formatTime n =
    (padStart 2 "0" (decOfN (Z.to_N (n / 60))) ++ ":" ++
     padStart 2 "0" (decOfN (Z.to_N (n mod 60))))%string.
Proof.
  intros H. unfold formatTime, toStringInt. cbv zeta.
  rewrite Z.rem_mod_nonneg by lia.
  assert (H1 : (0 <= n / 60)%Z) by (apply Z.div_pos; lia).
  assert (H2 : (0 <= n mod 60)%Z) by (apply Z.mod_pos_bound; lia).
  destruct (Z.ltb_spec (n / 60) 0); [lia |].
  destruct (Z.ltb_spec (n mod 60) 0); [lia |]. reflexivity.
Qed.

(** X5.  On non-negative whole seconds [formatTime] is injective: two
    different times are never displayed alike. *)
Theorem formatTime_injective (n1 n2 : Z) :
  (0 <= n1)%Z -> (0 <= n2)%Z -> formatTime n1 = formatTime n2 -> n1 = n2.
Proof.
  intros H1 H2 E. rewrite !formatTime_nonneg in E by assumption.
  pose proof (Z.mod_pos_bound n1 60 ltac:(lia)) as B1.
  pose proof (Z.mod_pos_bound n2 60 ltac:(lia)) as B2.
  apply append_inv in E.
  - destruct E as [Em Es].
    apply padStart_inj in Em.
    change (String ":" (padStart 2 "0" (decOfN (Z.to_N (n1 mod 60)))) =
            String ":" (padStart 2 "0" (decOfN (Z.to_N (n2 mod 60))))) in Es.
    injection Es as Es.
    apply padStart_inj in Es.
    assert (Hm : (n1 / 60 = n2 / 60)%Z).
    { apply Z2N.inj in Em; [exact Em | |]; apply Z.div_pos; lia. }
    assert (Hs : (n1 mod 60 = n2 mod 60)%Z) by (apply Z2N.inj in Es; lia).
    rewrite (Z.div_mod n1 60), (Z.div_mod n2 60) by lia. lia.
  - change (S (String.length (padStart 2 "0" (decOfN (Z.to_N (n1 mod 60))))) =
            S (String.length (padStart 2 "0" (decOfN (Z.to_N (n2 mod 60)))))).
    rewrite !padStart_length by lia. reflexivity.
Qed.

Lemma formatTime_injective_witness :
  (0 <= 75)%Z /\ formatTime 75 = formatTime 75 /\ 75%Z = 75%Z.
Proof.
  assert (H : (0 <= 75)%Z) by lia.
  assert (E : formatTime 75 = formatTime 75) by reflexivity.
  split; [exact H | split; [exact E |]].
  exact (formatTime_injective 75 75 H H E).
Defined.

(** X6.  Below 100 minutes (6000 s) [formatTime] returns exactly five
    characters, [mm:ss]. *)
Theorem formatTime_length (n : Z) :
  (0 <= n < 6000)%Z -> String.length (formatTime n) = 5%nat.
Proof.
  intros [H0 H1]. rewrite formatTime_nonneg by assumption.
  pose proof (Z.mod_pos_bound n 60 ltac:(lia)) as B.
  assert (Hm : (0 <= n / 60 < 100)%Z).
  { split; [apply Z.div_pos; lia | apply Z.div_lt_upper_bound; lia]. }
  rewrite length_append.
  change (String.length (":" ++ padStart 2 "0" (decOfN (Z.to_N (n mod 60)))))
    with (S (String.length (padStart 2 "0" (decOfN (Z.to_N (n mod 60)))))).
  rewrite !padStart_length by lia. reflexivity.
Qed.

Lemma formatTime_length_witness :
  (0 <= 330 < 6000)%Z /\ String.length (formatTime 330) = 5%nat.
Proof.
  assert (H : (0 <= 330 < 6000)%Z) by lia.
  split; [exact H |].
  exact (formatTime_length 330 H).
Defined.

End ExportFacts.

(** ** The session of the current revision *)

Module SessionFacts.
Import Js Current RecorderAux CurrentFacts MoreAux ListFacts Sorted.

Lemma lastTime_cons (a : TemperatureDataPoint) (l : series) :
  l <> [] -> lastTime (a :: l) = lastTime l.
Proof.
  intros H. unfold lastTime. rewrite last_cons.
  destruct (last l) eqn:E; [reflexivity |].
  apply last_None in E. contradiction.
Qed.

Lemma sorted_below_last (l : series) :
  StronglySorted earlier l ->
  Forall (fun x => time x <= lastTime l) l.
Proof.
  induction 1 as [| a l Hs IH Ha]; [constructor |].
  destruct l as [| b l].
  - constructor; [| constructor]. unfold lastTime. cbn. apply Qle_refl.
  - rewrite lastTime_cons by discriminate.
    constructor; [| exact IH].
    inversion Ha as [| ? ? Hab _]; subst.
    inversion IH as [| ? ? Hb _]; subst.
    unfold earlier in Hab. lra.
Qed.

Lemma lastTime_whole (l : series) :
  l <> [] -> Forall wholeTime l -> 0 <= lastTime l.
Proof.
  intros Hne Hw. unfold lastTime.
  destruct (last l) as [pt |] eqn:E; [| apply last_None in E; contradiction].
  apply last_Some_elem_of in E. rewrite Forall_forall in Hw.
  destruct (Hw pt E) as (z & Hz & ->).
  rewrite Zle_Qle in Hz. exact Hz.
Qed.

Lemma gtb_true (a b : number) : gtb a b = true -> b < a.
Proof.
  unfold gtb. intros H. apply negb_true_iff in H.
  destruct (Qlt_le_dec b a) as [|Hle]; [assumption |].
  apply Qle_bool_iff in Hle. congruence.
Qed.

Lemma logPoint_wellFormed (z : Z) (temp : number) (prev : series) :
  wellFormed prev -> wellFormed (logPoint (inject_Z z) temp prev).
Proof.
  intros [Hne Hs Hw]. unfold logPoint.
  destruct (gtb (inject_Z z) (lastTime prev)) eqn:G; [| split; assumption].
  apply gtb_true in G. cbv zeta. rewrite keepLastHour_snoc.
  pose proof (lastTime_whole prev Hne Hw) as H0.
  pose proof (sorted_below_last prev Hs) as Hb.
  split.
  - intros E. apply app_eq_nil in E. destruct E; discriminate.
  - apply sorted_snoc; [apply sorted_skipn, Hs |].
    apply Forall_skipn'. eapply Forall_impl; [exact Hb |].
    intros x Hx. cbv beta in Hx. unfold earlier. cbn [time]. lra.
  - apply Forall_app. split; [apply Forall_skipn', Hw |].
    constructor; [| constructor].
    exists z. split; [| reflexivity].
    assert (Hz : inject_Z 0 < inject_Z z) by (change (inject_Z 0) with 0; lra).
    rewrite <- Zlt_Qlt in Hz. lia.
Qed.

Ltac handlers s :=
  unfold sessionButtonClick, handleBackWithConfirmation, handleStart,
    handleFirstCrack, handleIncreaseTemp, handleDecreaseTemp, setCurrentTemp;
  destruct (isRunning s) eqn:Hrun; destruct (roastStage s) eqn:Hstage;
  cbn [negb andb fst snd st ls temperatureData roastStage seconds
       firstCrackTime isRunning startTime currentTemp rank].

Ltac fin Hu :=
  cbn [st ls temperatureData seconds roastStage firstCrackTime rank] in *;
  repeat match goal with
         | H : roastStage _ = _ |- _ => rewrite H in *
         end;
  cbn [rank] in *;
  eauto; try discriminate; try lia;
  try (intros; apply Hu; cbn [rank]; lia).

Lemma step_sessionInv p key e w : sessionInv w -> sessionInv (step p key e w).
Proof.
  intros [Hd [z Hz] Hu Hc]. destruct w as [s l]. cbn [st ls] in *.
  destruct e; cbn [step st ls].
  - unfold tick. destruct (isRunning s); [| split; eauto].
    destruct (startTime s) as [t0 |]; [| split; eauto].
    split; cbn [temperatureData seconds roastStage firstCrackTime].
    + unfold Math_floor. apply logPoint_wellFormed, Hd.
    + unfold Math_floor. eauto.
    + exact Hu.
    + exact Hc.
  - handlers s; split; fin Hu.
  - handlers s; split; fin Hu.
  - handlers s; split; fin Hu.
  - handlers s; split; fin Hu.
  - handlers s; split; fin Hu.
  - handlers s; split; fin Hu.
Qed.

Lemma fresh_sessionInv (p : Props) (now : Z) (l : storage) :
  sessionInv (mkWorld (mkState 0 true (Some (inject_Z now)) None started
                                [ mkPoint 0 (chargeTemp p) ] (chargeTemp p)) l).
Proof.
  split; cbn [st temperatureData seconds roastStage firstCrackTime].
  - split; [discriminate | repeat constructor |].
    constructor; [| constructor]. exists 0%Z. split; [lia | reflexivity].
  - exists 0%Z. reflexivity.
  - reflexivity.
  - discriminate.
Qed.

Lemma stopped_sessionInv (s : State series) (l l' : storage) :
  sessionInv (mkWorld s l) -> sessionInv (mkWorld (stopped s) l').
Proof. intros [Hd Hz Hu Hc]. split; assumption. Qed.

Lemma reachable_sessionInv p key w : reachable p key w -> sessionInv w.
Proof.
  induction 1 as [ls0 now w Hnone Hm | w e _ IH | w now w' Hw IH Hm].
  - rewrite (mount_fresh p key now _ Hnone) in Hm. injection Hm as <-.
    apply fresh_sessionInv.
  - apply step_sessionInv, IH.
  - destruct (inv_saved p key w (reachable_invariant p key w Hw)) as [Hnone | Hsome].
    + rewrite (mount_fresh p key now _ Hnone) in Hm. injection Hm as <-.
      apply fresh_sessionInv.
    + rewrite (mount_saved p key now _ _ Hsome) in Hm. injection Hm as <-.
      destruct w as [s l]. eapply stopped_sessionInv, IH.
Qed.

Lemma reachable_run p key es w :
  reachable p key w -> reachable p key (run p key es w).
Proof.
  revert w. induction es as [| e es IH]; intros w H; [exact H |].
  cbn [run fold_left]. apply IH, reach_step, H.
Qed.

(** X7.  In every reachable world of the current revision the series is
    not empty, its times are strictly increasing (no two points share a
    second) and are whole non-negative numbers, and the elapsed seconds
    are a whole number. *)
Theorem series_strictly_increasing p key w :
  reachable p key w ->
  temperatureData (st w) <> [] /\
  Sorted.StronglySorted earlier (temperatureData (st w)) /\
  Forall wholeTime (temperatureData (st w)) /\
  exists z : Z, seconds (st w) = inject_Z z.
Proof.
  intros H. destruct (reachable_sessionInv p key w H) as [[H1 H2 H3] H4 _ _].
  repeat split; assumption.
Qed.

Lemma series_strictly_increasing_witness :
  reachable kenya "k" (run kenya "k" [Tick 1000; Tick 1500; Tick 3000] w0) /\
  Sorted.StronglySorted earlier
    (temperatureData (st (run kenya "k" [Tick 1000; Tick 1500; Tick 3000] w0))).
Proof.
  assert (H : reachable kenya "k"
                (run kenya "k" [Tick 1000; Tick 1500; Tick 3000] w0)).
  { apply reachable_run. apply (reach_fresh kenya "k" ∅ 0%Z); reflexivity. }
  split; [exact H |].
  exact (proj1 (proj2 (series_strictly_increasing kenya "k" _ H))).
Defined.

Lemma step_rank p key e w :
  (rank (roastStage (st w)) <= rank (roastStage (st (step p key e w))))%nat.
Proof.
  destruct w as [s l]. destruct e; cbn [step st ls].
  - rewrite tick_stage. lia.
  - handlers s; rewrite ?Hstage; cbn [rank]; lia.
  - handlers s; rewrite ?Hstage; cbn [rank]; lia.
  - handlers s; rewrite ?Hstage; cbn [rank]; lia.
  - handlers s; rewrite ?Hstage; cbn [rank]; lia.
  - handlers s; rewrite ?Hstage; cbn [rank]; lia.
  - handlers s; rewrite ?Hstage; cbn [rank]; lia.
Qed.

(** X8.  No sequence of events moves a session to an earlier stage:
    the stage only advances along ready, started, firstCrack, ended. *)
Theorem stage_never_decreases p key es w :
  (rank (roastStage (st w)) <= rank (roastStage (st (run p key es w))))%nat.
Proof.
  revert w. induction es as [| e es IH]; intros w; [cbn; lia |].
  cbn [run fold_left]. etransitivity; [apply (step_rank p key e) | apply IH].
Qed.

Lemma step_cracked p key e w :
  (2 <= rank (roastStage (st w)))%nat ->
  firstCrackTime (st (step p key e w)) = firstCrackTime (st w).
Proof.
  intros H. destruct w as [s l]. cbn [st] in H. destruct e; cbn [step st ls].
  - unfold tick. destruct (isRunning s), (startTime s); reflexivity.
  - revert H. handlers s; rewrite ?Hstage; cbn [rank]; intros; try reflexivity; lia.
  - revert H. handlers s; rewrite ?Hstage; cbn [rank]; intros; try reflexivity; lia.
  - reflexivity.
  - reflexivity.
  - reflexivity.
  - revert H. handlers s; rewrite ?Hstage; cbn [rank]; intros; try reflexivity; lia.
Qed.

Lemma run_cracked p key es w :
  (2 <= rank (roastStage (st w)))%nat ->
  firstCrackTime (st (run p key es w)) = firstCrackTime (st w).
Proof.
  revert w. induction es as [| e es IH]; intros w H; [reflexivity |].
  change (run p key (e :: es) w) with (run p key es (step p key e w)).
  rewrite IH.
  - apply step_cracked, H.
  - pose proof (step_rank p key e w). lia.
Qed.

(** X9.  In every reachable world the first-crack time is absent in stage
    [started] and present in stage [firstCrack]; once recorded, no
    sequence of events changes it. *)
Theorem firstCrack_recorded_once p key w :
  reachable p key w ->
  (roastStage (st w) = started -> firstCrackTime (st w) = None) /\
  (roastStage (st w) = firstCrack ->
     exists t, firstCrackTime (st w) = Some t) /\
  (forall t es,
     firstCrackTime (st w) = Some t ->
     firstCrackTime (st (run p key es w)) = Some t).
Proof.
  intros H. destruct (reachable_sessionInv p key w H) as [_ _ Hu Hc].
  split; [| split].
  - intros E. apply Hu. rewrite E. cbn. lia.
  - exact Hc.
  - intros t es Ht. rewrite run_cracked; [exact Ht |].
    destruct (le_lt_dec 2 (rank (roastStage (st w)))) as [|Hlt]; [assumption |].
    rewrite Hu in Ht by lia. discriminate.
Qed.

Lemma firstCrack_recorded_once_witness :
  reachable kenya "k" (run kenya "k" [Tick 60000; FirstCrack] w0) /\
  firstCrackTime
    (st (run kenya "k" [Tick 90000; FirstCrack; Click 95000]
           (run kenya "k" [Tick 60000; FirstCrack] w0))) = Some 60.
Proof.
  assert (H : reachable kenya "k" (run kenya "k" [Tick 60000; FirstCrack] w0)).
  { apply reachable_run. apply (reach_fresh kenya "k" ∅ 0%Z); reflexivity. }
  split; [exact H |].
  destruct (firstCrack_recorded_once kenya "k" _ H) as (_ & _ & Honce).
  apply Honce. vm_compute. reflexivity.
Defined.

Lemma step_halted p key e w :
  halted (st w) ->
  halted (st (step p key e w)) /\
  seconds (st (step p key e w)) = seconds (st w) /\
  temperatureData (st (step p key e w)) = temperatureData (st w).
Proof.
  intros [Hr Hs]. destruct w as [s l]. cbn [st] in *. unfold halted.
  destruct e; cbn [step st ls].
  - unfold tick. rewrite Hr. auto.
  - revert Hs. handlers s; rewrite ?Hstage, ?Hrun; intros; repeat split; congruence.
  - revert Hs. handlers s; rewrite ?Hstage, ?Hrun; intros; repeat split; congruence.
  - cbn. auto.
  - cbn. auto.
  - cbn. repeat split; congruence.
  - revert Hs. handlers s; rewrite ?Hstage, ?Hrun; intros; repeat split; congruence.
Qed.

Lemma run_halted p key es w :
  halted (st w) ->
  halted (st (run p key es w)) /\
  seconds (st (run p key es w)) = seconds (st w) /\
  temperatureData (st (run p key es w)) = temperatureData (st w).
Proof.
  revert w. induction es as [| e es IH]; intros w H; [auto |].
  change (run p key (e :: es) w) with (run p key es (step p key e w)).
  destruct (step_halted p key e w H) as (H1 & H2 & H3).
  destruct (IH _ H1) as (K1 & K2 & K3).
  repeat split; [apply K1 | apply K1 | congruence | congruence].
Qed.

(** X10.  When the timer is stopped and the stage is not [ready], no
    sequence of events restarts it: [isRunning] stays false and the
    elapsed seconds and the series never change again.  (An ended session
    is such a state; the temperature buttons still work.) *)
Theorem halted_session_frozen p key es w :
  halted (st w) ->
  isRunning (st (run p key es w)) = false /\
  roastStage (st (run p key es w)) <> ready /\
  seconds (st (run p key es w)) = seconds (st w) /\
  temperatureData (st (run p key es w)) = temperatureData (st w).
Proof.
  intros H. destruct (run_halted p key es w H) as ([K1 K2] & K3 & K4).
  split; [exact K1 |]. split; [exact K2 |]. split; [exact K3 | exact K4].
Qed.

Lemma halted_session_frozen_witness :
  halted (stopped paused) /\
  seconds (st (run kenya "k" [Tick 9000; Start 9000; Increase; Click 9500]
                 (mkWorld (stopped paused) ∅))) = 5.
Proof.
  assert (H : halted (st (mkWorld (stopped paused) ∅)))
    by (split; [reflexivity | discriminate]).
  split; [exact H |].
  exact (proj1 (proj2 (proj2 (halted_session_frozen kenya "k"
           [Tick 9000; Start 9000; Increase; Click 9500]
           (mkWorld (stopped paused) ∅) H)))).
Defined.



End SessionFacts.

(** ** The series of the older revision *)

Module LegacyExtras.
Import Js Legacy RecorderAux MoreAux ListFacts Sorted.

Lemma sorted_below_end (front : list TemperatureDataPoint) (pt : TemperatureDataPoint) :
  StronglySorted notLater (front ++ [pt]) -> Forall (fun x => time x <= time pt) (front ++ [pt]).
Proof.
  induction front as [| a front IH]; cbn [app]; intros H.
  - constructor; [apply Qle_refl | constructor].
  - inversion H as [| ? ? Hs Ha]; subst.
    constructor; [| apply IH, Hs].
    rewrite Forall_app in Ha. destruct Ha as [_ Ha].
    inversion Ha; assumption.
Qed.

Lemma log_legacyInv (data : list TemperatureDataPoint) (secs t temp : number) :
  (exists front pt, data = front ++ [pt] /\ time pt = secs) ->
  StronglySorted notLater data -> secs <= t ->
  (exists front pt,
      keepLastHour (data ++ [mkPoint t temp]) = front ++ [pt] /\ time pt = t) /\
  StronglySorted notLater (keepLastHour (data ++ [mkPoint t temp])).
Proof.
  intros (front & pt & -> & Hpt) Hs Ht. rewrite <- Hpt in Ht.
  rewrite keepLastHour_snoc. split.
  - eexists _, _. split; reflexivity.
  - apply sorted_snoc; [apply sorted_skipn, Hs |].
    apply Forall_skipn'. pose proof (sorted_below_end front pt Hs) as Hb.
    eapply Forall_impl; [exact Hb |].
    intros x Hx. cbv beta in Hx. unfold notLater. cbn [time]. lra.
Qed.

Lemma step_legacyInv u e s : legacyInv s -> legacyInv (step u e s).
Proof.
  intros [Hl Hs]. destruct e; cbn [step].
  - unfold tick. destruct (isRunning s); [| split; assumption].
    destruct (log_legacyInv _ _ (seconds s + 1) (currentTemp s) Hl Hs) as [H1 H2]; [lra |].
    split; assumption.
  - split; assumption.
  - split; assumption.
  - unfold handleIncreaseTemp, setTempAndLog. destruct (isRunning s); [| split; assumption].
    destruct (log_legacyInv _ _ (seconds s) (currentTemp s + tempStep u) Hl Hs) as [H1 H2];
      [lra |].
    split; assumption.
  - unfold handleDecreaseTemp, setTempAndLog. destruct (isRunning s); [| split; assumption].
    destruct (log_legacyInv _ _ (seconds s)
                (Math_max 0 (currentTemp s - tempStep u)) Hl Hs) as [H1 H2]; [lra |].
    split; assumption.
  - split; cbn.
    + exists [], (mkPoint 0 c). split; reflexivity.
    + repeat constructor.
Qed.

(** X14.  In every reachable state of the older revision the series ends
    with a point logged at the current second, and its times never
    decrease (a manual change repeats the current second, a tick moves
    one second on). *)
Theorem legacy_series_ends_now p s :
  reachable p s ->
  (exists front pt,
      temperatureData s = front ++ [ pt ] /\ time pt = seconds s) /\
  Sorted.StronglySorted notLater (temperatureData s).
Proof.
  induction 1 as [| s e _ IH].
  - split; cbn.
    + exists [], (mkPoint 0 (chargeTemp p)). split; reflexivity.
    + repeat constructor.
  - destruct IH as [H1 H2].
    destruct (step_legacyInv (unit_ p) e s (Build_legacyInv _ H1 H2)) as [K1 K2].
    split; assumption.
Qed.

Lemma legacy_series_ends_now_witness :
  reachable kenya (run UnitC [Start; Tick; Increase] (initialState 20)) /\
  Sorted.StronglySorted notLater
    (temperatureData (run UnitC [Start; Tick; Increase] (initialState 20))).
Proof.
  assert (H : reachable kenya (run UnitC [Start; Tick; Increase] (initialState 20))).
  { exact (reach_step kenya _ Increase
             (reach_step kenya _ Tick
                (reach_step kenya _ Start (reach_init kenya)))). }
  split; [exact H |].
  exact (proj2 (legacy_series_ends_now kenya _ H)).
Defined.

End LegacyExtras.

(** ** The charts *)

Module ChartFacts.
Import Js Charts.

Lemma min_fold (xs : list number) (m : number) :
  exists lo,
    fold_left (fun acc x =>
                 match acc with
                 | None => Some x
                 | Some m => Some (if Qle_bool x m then x else m)
                 end) xs (Some m) = Some lo /\
    lo <= m /\ Forall (fun x => lo <= x) xs /\ In lo (m :: xs).
Proof.
  revert m. induction xs as [| x xs IH]; intros m; cbn [fold_left].
  - exists m. repeat split; [apply Qle_refl | constructor | left; reflexivity].
  - destruct (Qle_bool x m) eqn:E.
    + apply Qle_bool_iff in E.
      destruct (IH x) as (lo & H1 & H2 & H3 & H4).
      exists lo. split; [exact H1 |]. split; [lra |].
      split; [constructor; assumption |].
      right. exact H4.
    + assert (Hm : m < x).
      { destruct (Qlt_le_dec m x) as [|Hle]; [assumption |].
        apply Qle_bool_iff in Hle. congruence. }
      destruct (IH m) as (lo & H1 & H2 & H3 & H4).
      exists lo. split; [exact H1 |]. split; [exact H2 |].
      split; [constructor; [lra | assumption] |].
      destruct H4 as [-> | H4]; [left; reflexivity | right; right; exact H4].
Qed.

Lemma max_fold (xs : list number) (m : number) :
  exists hi,
    fold_left (fun acc x =>
                 match acc with
                 | None => Some x
                 | Some m => Some (if Qle_bool m x then x else m)
                 end) xs (Some m) = Some hi /\
    m <= hi /\ Forall (fun x => x <= hi) xs /\ In hi (m :: xs).
Proof.
  revert m. induction xs as [| x xs IH]; intros m; cbn [fold_left].
  - exists m. repeat split; [apply Qle_refl | constructor | left; reflexivity].
  - destruct (Qle_bool m x) eqn:E.
    + apply Qle_bool_iff in E.
      destruct (IH x) as (hi & H1 & H2 & H3 & H4).
      exists hi. split; [exact H1 |]. split; [lra |].
      split; [constructor; assumption |].
      right. exact H4.
    + assert (Hm : x < m).
      { destruct (Qlt_le_dec x m) as [|Hle]; [assumption |].
        apply Qle_bool_iff in Hle. congruence. }
      destruct (IH m) as (hi & H1 & H2 & H3 & H4).
      exists hi. split; [exact H1 |]. split; [exact H2 |].
      split; [constructor; [lra | assumption] |].
      destruct H4 as [-> | H4]; [left; reflexivity | right; right; exact H4].
Qed.

Lemma Math_min_all_spec (xs : list number) :
  xs <> [] ->
  exists lo, Math_min_all xs = Some lo /\ Forall (fun x => lo <= x) xs /\ In lo xs.
Proof.
  destruct xs as [| x xs]; [congruence | intros _].
  unfold Math_min_all. cbn [fold_left].
  destruct (min_fold xs x) as (lo & H1 & H2 & H3 & H4).
  exists lo. split; [exact H1 |]. split; [constructor; assumption | exact H4].
Qed.

Lemma Math_max_all_spec (xs : list number) :
  xs <> [] ->
  exists hi, Math_max_all xs = Some hi /\ Forall (fun x => x <= hi) xs /\ In hi xs.
Proof.
  destruct xs as [| x xs]; [congruence | intros _].
  unfold Math_max_all. cbn [fold_left].
  destruct (max_fold xs x) as (hi & H1 & H2 & H3 & H4).
  exists hi. split; [exact H1 |]. split; [constructor; assumption | exact H4].
Qed.

(** X15.  For a non-empty series the chart's minimum and maximum are
    temperatures of the series that bound all the others, and the Y axis
    domain is finite and leaves every point at least 5 degrees inside
    it. *)
Theorem yDomain_covers (data : list TemperatureDataPoint) :
  data <> [] ->
  exists lo hi,
    minTemp data = Some lo /\ maxTemp data = Some hi /\
    In lo (map temperature data) /\ In hi (map temperature data) /\
    yDomain data = Some (Math_floor (lo - 5), Math_ceil (hi + 5)) /\
    Forall (fun pt =>
              lo <= temperature pt /\ temperature pt <= hi /\
              Math_floor (lo - 5) <= temperature pt - 5 /\
              temperature pt + 5 <= Math_ceil (hi + 5)) data.
Proof.
  intros Hne.
  assert (Hm : map temperature data <> []) by (destruct data; [congruence | discriminate]).
  destruct (Math_min_all_spec _ Hm) as (lo & L1 & L2 & L3).
  destruct (Math_max_all_spec _ Hm) as (hi & U1 & U2 & U3).
  exists lo, hi. unfold yDomain, minTemp, maxTemp. rewrite L1, U1.
  repeat split; try assumption.
  rewrite Forall_map in L2, U2. rewrite Forall_forall in *.
  intros pt Hpt. specialize (L2 pt Hpt). specialize (U2 pt Hpt). cbn in L2, U2.
  pose proof (Qfloor_le (lo - 5)) as F. pose proof (Qle_ceiling (hi + 5)) as C.
  unfold Math_floor, Math_ceil. repeat split; lra.
Qed.

Lemma filter_all {A} (P : A -> Prop) `{forall x, Decision (P x)} (l : list A) :
  Forall P l -> filter P l = l.
Proof.
  induction 1 as [| x l Hx _ IH]; [reflexivity |].
  rewrite filter_cons_True by exact Hx. rewrite IH. reflexivity.
Qed.

Lemma sixtieths (T : Q) : T == (T / 60) * 60.
Proof. field. Qed.

Lemma minuteMarks_bound (T : number) :
  Forall (fun tick => Qle_bool tick (T + 60) = true)
         (minuteMarks (Qfloor (T / 60) + 2)).
Proof.
  unfold minuteMarks. apply Forall_forall. intros tick Hin.
  apply list_elem_of_In, in_map_iff in Hin. destruct Hin as (i & <- & Hi).
  apply in_seq in Hi. apply Qle_bool_iff.
  pose proof (Qfloor_le (T / 60)) as F.
  assert (HT : inject_Z (Qfloor (T / 60)) * 60 <= T).
  { pose proof (sixtieths T) as E.
    set (q := T / 60) in *. clearbody q. lra. }
  assert (Hi' : (Z.of_nat i <= Qfloor (T / 60) + 1)%Z) by lia.
  rewrite Zle_Qle, inject_Z_plus in Hi'. change (inject_Z 1) with 1 in Hi'.
  lra.
Qed.

Lemma yDomain_covers_witness :
  [ mkPoint 0 20; mkPoint 5 (43 # 2) ] <> [] /\
  exists lo hi,
    minTemp [ mkPoint 0 20; mkPoint 5 (43 # 2) ] = Some lo /\
    maxTemp [ mkPoint 0 20; mkPoint 5 (43 # 2) ] = Some hi /\
    yDomain [ mkPoint 0 20; mkPoint 5 (43 # 2) ] =
      Some (Math_floor (lo - 5), Math_ceil (hi + 5)).
Proof.
  assert (H : [ mkPoint 0 20; mkPoint 5 (43 # 2) ] <> []) by discriminate.
  split; [exact H |].
  destruct (yDomain_covers _ H) as (lo & hi & L & U & _ & _ & E & _).
  exists lo, hi. split; [exact L | split; [exact U | exact E]].
Defined.

Example yDomain_example :
  yDomain [ mkPoint 0 20; mkPoint 5 (43 # 2) ] = Some (15, 27) /\
  yDomain [] = None.
Proof. split; reflexivity. Qed.

(** X16.  The filter applied to the X axis ticks never removes one: the
    ticks are the multiples of 60 up to the first one beyond the last
    point.  When the last time is non-negative there are
    [floor(time / 60) + 2] of them and the largest lies strictly after the
    last point. *)
Theorem xTicks_cover (data : list TemperatureDataPoint) (pt : TemperatureDataPoint) :
  last data = Some pt ->
  xTicks data = minuteMarks (Qfloor (time pt / 60) + 2) /\
  (0 <= time pt ->
   length (xTicks data) = Z.to_nat (Qfloor (time pt / 60) + 2) /\
   In (inject_Z (Qfloor (time pt / 60) + 1) * 60) (xTicks data) /\
   time pt < inject_Z (Qfloor (time pt / 60) + 1) * 60).
Proof.
  intros Hlast. unfold xTicks. rewrite Hlast.
  rewrite (filter_all _ _ (minuteMarks_bound (time pt))).
  split; [reflexivity |]. intros H0.
  assert (Hf : (0 <= Qfloor (time pt / 60))%Z).
  { rewrite <- (Qfloor_Z 0). apply Qfloor_resp_le. change (inject_Z 0) with 0.
    apply Qle_shift_div_l; [reflexivity | lra]. }
  split; [| split].
  - unfold minuteMarks. rewrite length_map, length_seq. reflexivity.
  - unfold minuteMarks. apply in_map_iff.
    exists (Z.to_nat (Qfloor (time pt / 60) + 1)). split.
    + rewrite Z2Nat.id by lia. reflexivity.
    + apply in_seq. lia.
  - pose proof (Qlt_floor (time pt / 60)) as F.
    pose proof (sixtieths (time pt)) as E.
    set (q := time pt / 60) in *. clearbody q. lra.
Qed.

Lemma xTicks_cover_witness :
  last [ mkPoint 0 20; mkPoint 125 21 ] = Some (mkPoint 125 21) /\
  xTicks [ mkPoint 0 20; mkPoint 125 21 ] = minuteMarks (Qfloor (125 / 60) + 2).
Proof.
  assert (H : last [ mkPoint 0 20; mkPoint 125 21 ] = Some (mkPoint 125 21))
    by reflexivity.
  split; [exact H |].
  exact (proj1 (xTicks_cover _ _ H)).
Defined.

End ChartFacts.

(** ** The cache manager *)

Module CacheFacts.
Import CacheManager MoreAux.

Lemma sessionData_fold (ls : rawStorage) (keys : list string) (acc : rawStorage) (k : string) :
  fold_left (fun data key =>
               match ls !! key with
               | Some value =>
                   if String.eqb value "" then data else <[ key := value ]> data
               | None => data
               end) keys acc !! k =
  if decide (k ∈ keys) then
    match ls !! k with
    | Some value => if String.eqb value "" then acc !! k else Some value
    | None => acc !! k
    end
  else acc !! k.
Proof.
  revert acc. induction keys as [| key keys IH]; intros acc; cbn [fold_left].
  - rewrite decide_False by (apply not_elem_of_nil). reflexivity.
  - rewrite IH. destruct (decide (k = key)) as [-> | Hne].
    + rewrite (decide_True _ _ (list_elem_of_here key keys)).
      destruct (ls !! key) as [value |] eqn:E.
      * destruct (String.eqb value "") eqn:Ev.
        -- destruct (decide (key ∈ keys)); reflexivity.
        -- rewrite lookup_insert_eq. destruct (decide (key ∈ keys)); reflexivity.
      * destruct (decide (key ∈ keys)); reflexivity.
    + assert (Hacc : (match ls !! key with
                      | Some value => if String.eqb value "" then acc else <[key:=value]> acc
                      | None => acc
                      end) !! k = acc !! k).
      { destruct (ls !! key) as [value |]; [| reflexivity].
        destruct (String.eqb value ""); [reflexivity |].
        apply lookup_insert_ne. congruence. }
      rewrite Hacc.
      destruct (decide (k ∈ keys)) as [Hin | Hout].
      * rewrite decide_True by (apply list_elem_of_further, Hin). reflexivity.
      * rewrite decide_False; [reflexivity |].
        intros Hin. apply elem_of_cons in Hin. destruct Hin; [congruence | contradiction].
Qed.

Lemma currentSessionKeys_spec (ls : rawStorage) (k : string) :
  k ∈ currentSessionKeys ls <-> isSessionKey k = true /\ is_Some (ls !! k).
Proof.
  unfold currentSessionKeys. rewrite list_elem_of_filter, list_elem_of_fmap.
  split.
  - intros [Hk ([k' v] & -> & Hin)]. split; [exact Hk |].
    apply elem_of_map_to_list in Hin. eauto.
  - intros [Hk [v Hv]]. split; [exact Hk |].
    exists (k, v). split; [reflexivity | apply elem_of_map_to_list, Hv].
Qed.

Lemma sessionData_lookup (ls : rawStorage) (k : string) :
  sessionData ls !! k = kept ls k.
Proof.
  unfold sessionData, kept. rewrite sessionData_fold, lookup_empty.
  destruct (decide (k ∈ currentSessionKeys ls)) as [Hin | Hout].
  - apply currentSessionKeys_spec in Hin. destruct Hin as [-> [v ->]]. reflexivity.
  - destruct (isSessionKey k) eqn:Ek; [| reflexivity].
    destruct (ls !! k) as [v |] eqn:Ev; [| reflexivity].
    exfalso. apply Hout, currentSessionKeys_spec. eauto.
Qed.

Lemma restore_fold (l : list (string * string)) (acc : rawStorage) (k : string) :
  NoDup (l.*1) ->
  fold_left (fun store '(key, value) => <[ key := value ]> store) l acc !! k =
  match list_to_map (M := rawStorage) l !! k with
  | Some v => Some v
  | None => acc !! k
  end.
Proof.
  revert acc. induction l as [| [key value] l IH]; intros acc Hnd; cbn [fold_left].
  - cbn [list_to_map foldr]. rewrite lookup_empty. reflexivity.
  - inversion Hnd as [| ? ? Hnotin Hnd']; subst. rewrite (IH _ Hnd').
    cbn [list_to_map foldr]. cbn [fst snd curry].
    destruct (decide (k = key)) as [-> | Hne].
    + rewrite !lookup_insert_eq.
      rewrite (not_elem_of_list_to_map_1 (M := gmap string) l key Hnotin). reflexivity.
    + rewrite !lookup_insert_ne by congruence. reflexivity.
Qed.

Lemma clearOldLocalStorage_sessionData (ls : rawStorage) :
  clearOldLocalStorage ls = sessionData ls.
Proof.
  apply map_eq. intros k. unfold clearOldLocalStorage.
  rewrite restore_fold by apply NoDup_fst_map_to_list.
  rewrite list_to_map_to_list, lookup_empty.
  destruct (sessionData ls !! k); reflexivity.
Qed.

Lemma clearOldLocalStorage_lookup (ls : rawStorage) (key : string) :
  clearOldLocalStorage ls !! key = kept ls key.
Proof. rewrite clearOldLocalStorage_sessionData. apply sessionData_lookup. Qed.

(** X17.  [clearOldLocalStorage] keeps exactly the entries whose key
    starts with [roasting_session_] and whose value is not the empty
    string, with their values; every other key is removed. *)
Theorem clearOldLocalStorage_keeps_sessions (ls : rawStorage) (key : string) :
  clearOldLocalStorage ls !! key =
    if isSessionKey key then
      match ls !! key with
      | Some value => if String.eqb value "" then None else Some value
      | None => None
      end
    else None.
Proof.
  rewrite clearOldLocalStorage_sessionData, sessionData_lookup. reflexivity.
Qed.

Lemma prefix_append (s1 s2 : string) : String.prefix s1 (s1 ++ s2) = true.
Proof.
  induction s1 as [| c s1 IH].
  - destruct s2; reflexivity.
  - change (String.prefix (String c s1) (String c (s1 ++ s2)) = true).
    cbn [String.prefix]. destruct (ascii_dec c c); [exact IH | congruence].
Qed.

Lemma sessionKey_isSessionKey (beanName : string) (now : Z) :
  isSessionKey (Current.sessionKey beanName now) = true.
Proof. apply prefix_append. Qed.

Lemma version_not_session : isSessionKey VERSION_KEY = false.
Proof. reflexivity. Qed.

(** X18.  After [initializeCacheManager] the stored version is the app's
    version, and running it a second time changes nothing. *)
Theorem initializeCacheManager_idempotent (ls : rawStorage) :
  initializeCacheManager ls !! VERSION_KEY = Some APP_VERSION /\
  initializeCacheManager (initializeCacheManager ls) = initializeCacheManager ls.
Proof.
  assert (H : initializeCacheManager ls !! VERSION_KEY = Some APP_VERSION).
  { unfold initializeCacheManager. cbv zeta.
    destruct (decide (ls !! VERSION_KEY = Some APP_VERSION)) as [E | _];
      [exact E | apply lookup_insert_eq]. }
  split; [exact H |].
  unfold initializeCacheManager at 1. cbv zeta.
  rewrite decide_True by exact H. reflexivity.
Qed.

(** X19.  On a version change the non-empty blob saved under a roasting
    session's key survives, while every key that is neither a session key
    nor the version key is removed, and so is a session key holding the
    empty string. *)
Theorem version_change_keeps_sessions (ls : rawStorage) :
  ls !! VERSION_KEY <> Some APP_VERSION ->
  (forall beanName now value,
      value <> ""%string ->
      ls !! Current.sessionKey beanName now = Some value ->
      initializeCacheManager ls !! Current.sessionKey beanName now = Some value) /\
  (forall key,
      key <> VERSION_KEY -> isSessionKey key = false ->
      initializeCacheManager ls !! key = None) /\
  (forall key,
      isSessionKey key = true -> ls !! key = Some ""%string ->
      initializeCacheManager ls !! key = None).
Proof.
  intros Hv. unfold initializeCacheManager. cbv zeta.
  rewrite decide_False by exact Hv.
  split; [| split].
  - intros beanName now value Hne Hl.
    rewrite lookup_insert_ne by discriminate.
    rewrite clearOldLocalStorage_lookup. unfold kept.
    rewrite sessionKey_isSessionKey, Hl.
    destruct (String.eqb_spec value ""); [contradiction | reflexivity].
  - intros key Hk Hs. rewrite lookup_insert_ne by congruence.
    rewrite clearOldLocalStorage_lookup. unfold kept. rewrite Hs. reflexivity.
  - intros key Hs Hl.
    assert (Hk : VERSION_KEY <> key) by (intros <-; rewrite version_not_session in Hs; discriminate).
    rewrite lookup_insert_ne by exact Hk.
    rewrite clearOldLocalStorage_lookup. unfold kept. rewrite Hs, Hl. reflexivity.
Qed.

Lemma version_change_keeps_sessions_witness :
  oldStore !! VERSION_KEY <> Some APP_VERSION /\
  initializeCacheManager oldStore !! "theme" = None.
Proof.
  assert (H : oldStore !! VERSION_KEY <> Some APP_VERSION)
    by (vm_compute; discriminate).
  split; [exact H |].
  destruct (version_change_keeps_sessions oldStore H) as (_ & Hother & _).
  apply Hother; [discriminate | reflexivity].
Defined.

Example version_change_example :
  initializeCacheManager oldStore =
    {[ "app_version" := "1.5.1";
       "roasting_session_Kenya_1700000000000" := "{}" ]}.
Proof. vm_compute. reflexivity. Qed.

(** With the version up to date nothing is touched. *)
Lemma same_version_untouched (ls : rawStorage) :
  ls !! VERSION_KEY = Some APP_VERSION -> initializeCacheManager ls = ls.
Proof.
  intros H. unfold initializeCacheManager. cbv zeta.
  rewrite decide_True by exact H. reflexivity.
Qed.

End CacheFacts.

(** ** The summary of a session, and reloads *)

Module SummaryFacts.
Import Js Current RecorderAux CurrentFacts Charts MoreAux ListFacts.

Lemma step_warm p key e w : warm w -> warm (step p key e w).
Proof.
  intros [Hc Hd]. split; [apply RecorderClaims.current_step_temp, Hc |].
  destruct w as [s l]. cbn [st] in *. destruct e; cbn [step st ls].
  - unfold tick. destruct (isRunning s); [| exact Hd].
    destruct (startTime s); [| exact Hd].
    cbn [temperatureData]. unfold logPoint.
    destruct (gtb _ _); [| exact Hd].
    cbv zeta. rewrite keepLastHour_snoc. apply Forall_app.
    split; [apply Forall_skipn', Hd | constructor; [exact Hc | constructor]].
  - unfold handleStart. destruct (_ && _); exact Hd.
  - unfold handleFirstCrack. destruct (roastStage s); exact Hd.
  - exact Hd.
  - exact Hd.
  - exact Hd.
  - unfold sessionButtonClick, handleStart, handleFirstCrack.
    destruct (roastStage s), (isRunning s); exact Hd.
Qed.

Lemma reachable_warm p key w :
  0 <= chargeTemp p -> reachable p key w -> warm w.
Proof.
  intros Hc. induction 1 as [ls0 now w Hnone Hm | w e _ IH | w now w' Hw IH Hm].
  - rewrite (mount_fresh p key now _ Hnone) in Hm. injection Hm as <-.
    split; [exact Hc | constructor; [exact Hc | constructor]].
  - apply step_warm, IH.
  - destruct (inv_saved p key w (reachable_invariant p key w Hw)) as [Hnone | Hsome].
    + rewrite (mount_fresh p key now _ Hnone) in Hm. injection Hm as <-.
      split; [exact Hc | constructor; [exact Hc | constructor]].
    + rewrite (mount_saved p key now _ _ Hsome) in Hm. injection Hm as <-. exact IH.
Qed.

(** X13.  For a session with a positive charge temperature, the final
    temperature shown by the summary is always positive: it is the last
    logged temperature, except that a roast whose last point is at 0
    degrees reports the charge temperature instead. *)
Theorem finalTemp_positive p key w :
  0 < chargeTemp p -> reachable p key w ->
  0 < finalTemp (temperatureData (st w)) (chargeTemp p) /\
  (forall pt, last (temperatureData (st w)) = Some pt ->
     finalTemp (temperatureData (st w)) (chargeTemp p) =
       if Qeq_bool (temperature pt) 0 then chargeTemp p else temperature pt).
Proof.
  intros Hc Hr.
  destruct (reachable_warm p key w ltac:(lra) Hr) as [_ Hd].
  unfold finalTemp. split.
  - destruct (last (temperatureData (st w))) as [pt |] eqn:E; [| exact Hc].
    destruct (Qeq_bool (temperature pt) 0) eqn:Et; [exact Hc |].
    apply last_Some_elem_of in E. rewrite Forall_forall in Hd.
    specialize (Hd pt E). cbv beta in Hd.
    destruct (Qlt_le_dec 0 (temperature pt)) as [|Hle]; [assumption |].
    assert (Hz : temperature pt == 0) by lra.
    apply Qeq_bool_iff in Hz. congruence.
  - intros pt ->. reflexivity.
Qed.

Lemma sessionKey_inj (beanName : string) (n1 n2 : Z) :
  sessionKey beanName n1 = sessionKey beanName n2 -> n1 = n2.
Proof.
  unfold sessionKey. intros H.
  apply (inj (String.app _)) in H. apply (inj (String.app _)) in H.
  apply (inj (String.app _)) in H. apply (inj pretty) in H. exact H.
Qed.

Lemma finalTemp_positive_witness :
  0 < chargeTemp kenya /\ reachable kenya "k" w0 /\
  0 < finalTemp (temperatureData (st w0)) (chargeTemp kenya).
Proof.
  assert (H : 0 < chargeTemp kenya) by reflexivity.
  assert (R : reachable kenya "k" w0)
    by (apply (reach_fresh kenya "k" ∅ 0%Z); reflexivity).
  split; [exact H | split; [exact R |]].
  exact (proj1 (finalTemp_positive kenya "k" w0 H R)).
Defined.

(** X12.  The session key contains the time of the mount, so a mount at
    another millisecond does not find the blob saved by an earlier mount
    of the same bean: it starts a fresh, running session at second 0. *)
Theorem reload_starts_afresh (p : Props) (s : State series) (ls0 : storage)
    (now1 now2 now : Z) :
  now1 <> now2 ->
  ls0 !! sessionKey (beanName p) now2 = None ->
  exists w,
    mount p (sessionKey (beanName p) now2) now
          (saveEffect p (sessionKey (beanName p) now1) s ls0) = Some w /\
    temperatureData (st w) = [ mkPoint 0 (chargeTemp p) ] /\
    seconds (st w) = 0 /\
    roastStage (st w) = started /\
    isRunning (st w) = true.
Proof.
  intros Hne Hnone. eexists. split.
  - apply mount_fresh. unfold saveEffect.
    rewrite lookup_insert_ne; [exact Hnone |].
    intros E. apply sessionKey_inj in E. contradiction.
  - cbn. repeat split; reflexivity.
Qed.

Lemma reload_starts_afresh_witness :
  1000%Z <> 2000%Z /\
  (∅ : storage) !! sessionKey (beanName kenya) 2000 = None /\
  exists w,
    mount kenya (sessionKey (beanName kenya) 2000) 2001
          (saveEffect kenya (sessionKey (beanName kenya) 1000) paused ∅) = Some w /\
    roastStage (st w) = started.
Proof.
  assert (H : 1000%Z <> 2000%Z) by discriminate.
  assert (K : (∅ : storage) !! sessionKey (beanName kenya) 2000 = None)
    by apply lookup_empty.
  split; [exact H | split; [exact K |]].
  destruct (reload_starts_afresh kenya paused ∅ 1000 2000 2001 H K)
    as (w & Hm & _ & _ & Hs & _).
  exists w. split; assumption.
Defined.

End SummaryFacts.
